(** * git_versions.py: latest semantic-version tag per repository

    A shallow embedding of [src/git_versions.py] and of the pieces of the
    Python runtime it calls ([str.lstrip], [str.split], [os.path.basename],
    [list.sort(key=...)], [distutils.version.StrictVersion]).  The
    [semantic_version] package and the shell are external collaborators and
    appear as interfaces. *)

From Stdlib Require Import String Ascii List ZArith NArith Lia Bool.
From Stdlib Require Import Sorting.Sorted Sorting.Permutation.
Import ListNotations.
Open Scope string_scope.

(* ================================================================== *)
(** ** Python [str] operations used by the script *)

Module PyStr.

(** [bool(s)] for a [str]: empty strings are falsy. *)
Definition truthy (s : string) : bool :=
  match s with EmptyString => false | String _ _ => true end.

(** [c in chars]. *)
Fixpoint mem (c : ascii) (chars : string) : bool :=
  match chars with
  | EmptyString => false
  | String d chars' => Ascii.eqb c d || mem c chars'
  end.

(** [s.lstrip(chars)]: drops the longest prefix made of characters of
    [chars]. *)
Fixpoint lstrip (chars : string) (s : string) : string :=
  match s with
  | EmptyString => EmptyString
  | String c s' => if mem c chars then lstrip chars s' else s
  end.

(** [s.split(sep)] for a one-character separator; never returns [[]]. *)
Fixpoint split (sep : ascii) (s : string) : list string :=
  match s with
  | EmptyString => [EmptyString]
  | String c s' =>
      if Ascii.eqb c sep then EmptyString :: split sep s'
      else match split sep s' with
           | [] => [String c EmptyString]
           | w :: ws => String c w :: ws
           end
  end.

(** [s.rfind(sep)] counted from offset [i]: index of the last occurrence,
    [-1] when there is none. *)
Fixpoint rfind_from (sep : ascii) (s : string) (i : Z) : Z :=
  match s with
  | EmptyString => (-1)%Z
  | String c s' =>
      let r := rfind_from sep s' (i + 1) in
      if (0 <=? r)%Z then r
      else if Ascii.eqb c sep then i else (-1)%Z
  end.

Definition rfind (sep : ascii) (s : string) : Z := rfind_from sep s 0.

(** [s[i:]] for [0 <= i]. *)
Definition slice_from (i : Z) (s : string) : string :=
  substring (Z.to_nat i) (String.length s - Z.to_nat i) s.

(** [sep.join(l)]. *)
Definition join (sep : string) (l : list string) : string :=
  String.concat sep l.

(** [x in l] for a list of strings. *)
Definition contains (x : string) (l : list string) : bool :=
  existsb (String.eqb x) l.

Definition nl : string := String (ascii_of_nat 10) EmptyString.

End PyStr.

(** [posixpath.basename]: [i = p.rfind('/') + 1; return p[i:]]. *)
Definition basename (p : string) : string :=
  let i := (PyStr.rfind "/" p + 1)%Z in
  PyStr.slice_from i p.

(* ================================================================== *)
(** ** [distutils.version.StrictVersion] *)

Module StrictVersion.

(** The instance attributes set by [parse]. *)
Record t := mk {
  version : N * N * N;
  prerelease : option (ascii * N)
}.

(** [\d] under [re.ASCII]. *)
Definition is_digit (c : ascii) : bool :=
  let n := nat_of_ascii c in (48 <=? n)%nat && (n <=? 57)%nat.

(** Greedy [\d*]: the digits at the front and what follows them. *)
Fixpoint span_digits (s : string) : string * string :=
  match s with
  | EmptyString => (EmptyString, EmptyString)
  | String c s' =>
      if is_digit c then
        let (d, r) := span_digits s' in (String c d, r)
      else (EmptyString, s)
  end.

(** [int(d)] for a string of ASCII digits; Python integers are unbounded. *)
Definition digit_value (c : ascii) : N := N.of_nat (nat_of_ascii c - 48).

Fixpoint int_acc (acc : N) (d : string) : N :=
  match d with
  | EmptyString => acc
  | String c d' => int_acc (10 * acc + digit_value c) d'
  end.

Definition int (d : string) : N := int_acc 0 d.

(** [(\d+)] at the front of [s]: its value and the rest. *)
Definition number (s : string) : option (N * string) :=
  match span_digits s with
  | (EmptyString, _) => None
  | (d, r) => Some (int d, r)
  end.

(** [$]: the end of the string, or just before a final newline. *)
Definition at_end (s : string) : bool :=
  String.eqb s EmptyString || String.eqb s PyStr.nl.

(** [([ab](\d+))?$] *)
Definition parse_prerelease (s : string) : option (option (ascii * N)) :=
  match s with
  | String c s' =>
      if Ascii.eqb c "a" || Ascii.eqb c "b" then
        match number s' with
        | Some (n, r) => if at_end r then Some (Some (c, n)) else None
        | None => None
        end
      else if at_end s then Some None else None
  | EmptyString => Some None
  end.

(** [version_re = ^(\d+) \. (\d+) (\. (\d+))? ([ab](\d+))?$] (verbose,
    ASCII) and the body of [parse]; [None] stands for the [ValueError]
    raised when the pattern does not match. *)
Definition parse (vstring : string) : option t :=
  match number vstring with
  | Some (major, String "." r1) =>
      match number r1 with
      | Some (minor, r2) =>
          match r2 with
          | String "." r3 =>
              match number r3 with
              | Some (patch, r4) =>
                  match parse_prerelease r4 with
                  | Some pre => Some (mk (major, minor, patch) pre)
                  | None => None
                  end
              | None => None
              end
          | _ =>
              match parse_prerelease r2 with
              | Some pre => Some (mk (major, minor, 0%N) pre)
              | None => None
              end
          end
      | None => None
      end
  | _ => None
  end.

(** Tuple comparison [a < b] on [(int, int, int)]. *)
Definition version_ltb (a b : N * N * N) : bool :=
  let '(a1, a2, a3) := a in
  let '(b1, b2, b3) := b in
  if negb (a1 =? b1)%N then (a1 <? b1)%N
  else if negb (a2 =? b2)%N then (a2 <? b2)%N
  else (a3 <? b3)%N.

Definition version_eqb (a b : N * N * N) : bool :=
  let '(a1, a2, a3) := a in
  let '(b1, b2, b3) := b in
  (a1 =? b1)%N && (a2 =? b2)%N && (a3 =? b3)%N.

(** Tuple comparison on [(str, int)] with a one-character [str]. *)
Definition pre_eqb (p q : ascii * N) : bool :=
  Ascii.eqb (fst p) (fst q) && (snd p =? snd q)%N.

Definition pre_ltb (p q : ascii * N) : bool :=
  if negb (Ascii.eqb (fst p) (fst q))
  then (nat_of_ascii (fst p) <? nat_of_ascii (fst q))%nat
  else (snd p <? snd q)%N.

(** [StrictVersion._cmp]. *)
Definition _cmp (self other : t) : Z :=
  if negb (version_eqb (version self) (version other)) then
    if version_ltb (version self) (version other) then (-1)%Z else 1%Z
  else
    match prerelease self, prerelease other with
    | None, None => 0%Z
    | Some _, None => (-1)%Z
    | None, Some _ => 1%Z
    | Some p, Some q =>
        if pre_eqb p q then 0%Z
        else if pre_ltb p q then (-1)%Z else 1%Z
    end.

(** [Version.__lt__]: [c = self._cmp(other); return c < 0]. *)
Definition __lt__ (self other : t) : bool := (_cmp self other <? 0)%Z.

End StrictVersion.

(** The order the sort sees on [StrictVersion] keys. *)
Module StrictOrder.
Import StrictVersion.

(** [a <= b]: [not (b < a)]. *)
Definition le (a b : t) : Prop := __lt__ b a = false.

(** Numeric [major.minor.patch] order on the version tuples alone. *)
Definition triple_le (a b : t) : Prop :=
  version_ltb (version b) (version a) = false.

End StrictOrder.

(* ================================================================== *)
(** ** Numeric version order, as the specification words it

    Independent of the code above: a version string reads as
    [major.minor.patch], each a decimal number, a missing patch counting as
    zero and a pre-release tag ([a] or [b] then a number) at the end being
    set aside; versions compare component by component as numbers. *)

Module Numeric.

(** The decimal digits, by increasing value. *)
Definition decimals : string := "0123456789".

(** The place of a character in a string, counted from zero. *)
Fixpoint place (c : ascii) (s : string) : option N :=
  match s with
  | EmptyString => None
  | String d s' =>
      if Ascii.eqb c d then Some 0%N
      else match place c s' with
           | Some n => Some (N.succ n)
           | None => None
           end
  end.

(** The value of a decimal digit is its place among the decimal digits. *)
Definition digit (c : ascii) : option N := place c decimals.

(** Positional value: a digit weighs ten times the digit to its right. *)
Fixpoint weigh (d : string) : option N :=
  match d with
  | EmptyString => Some 0%N
  | String c d' =>
      match digit c, weigh d' with
      | Some x, Some y => Some (x * 10 ^ N.of_nat (String.length d') + y)%N
      | _, _ => None
      end
  end.

(** The number a decimal numeral denotes; a numeral has a digit. *)
Definition numeral (d : string) : option N :=
  match d with
  | EmptyString => None
  | String _ _ => weigh d
  end.

(** The pieces of a string between its dots. *)
Fixpoint fields (s : string) : list string :=
  match s with
  | EmptyString => [EmptyString]
  | String c s' =>
      match fields s' with
      | f :: fs => if Ascii.eqb c "." then EmptyString :: f :: fs
                   else String c f :: fs
      | [] => [String c EmptyString]
      end
  end.

(** The string up to its pre-release letter. *)
Fixpoint release (s : string) : string :=
  match s with
  | EmptyString => EmptyString
  | String c s' =>
      if Ascii.eqb c "a" || Ascii.eqb c "b" then EmptyString
      else String c (release s')
  end.

(** The [(major, minor, patch)] a version string reads as. *)
Definition triple (s : string) : option (N * N * N) :=
  match map numeral (fields (release s)) with
  | [Some major; Some minor] => Some (major, minor, 0%N)
  | [Some major; Some minor; Some patch] => Some (major, minor, patch)
  | _ => None
  end.

(** [x] is numerically below [y]. *)
Definition lt (x y : N * N * N) : Prop :=
  let '(x1, x2, x3) := x in
  let '(y1, y2, y3) := y in
  (x1 < y1 \/ (x1 = y1 /\ (x2 < y2 \/ (x2 = y2 /\ x3 < y3))))%N.

Definition le (x y : N * N * N) : Prop := x = y \/ lt x y.

End Numeric.


(* ================================================================== *)
(** ** [list.sort(key=...)] *)

Module PySort.
Section Keyed.
Context {K A : Type}.
Variable lt : K -> K -> bool.

(** Insertion keeping equal keys in their order of arrival: the new
    entry goes after every entry that is not greater than it. *)
Fixpoint insert (x : K * A) (l : list (K * A)) : list (K * A) :=
  match l with
  | [] => [x]
  | y :: l' => if lt (fst x) (fst y) then x :: l else y :: insert x l'
  end.

(** A stable sort that only uses [<] on the keys, as [list.sort]
    guarantees. *)
Definition sort_decorated (l : list (K * A)) : list (K * A) :=
  fold_left (fun acc x => insert x acc) l [].

(** Keys are computed for every element first; the first key that
    raises leaves the list as it was ([None]). *)
Fixpoint decorate (key : A -> option K) (l : list A)
  : option (list (K * A)) :=
  match l with
  | [] => Some []
  | x :: l' =>
      match key x with
      | None => None
      | Some k =>
          match decorate key l' with
          | None => None
          | Some d => Some ((k, x) :: d)
          end
      end
  end.

Definition sort (key : A -> option K) (l : list A) : option (list A) :=
  match decorate key l with
  | None => None
  | Some d => Some (map snd (sort_decorated d))
  end.

(** Order on decorated entries: [p] may stand before [q]. *)
Definition dle (p q : K * A) : Prop := lt (fst q) (fst p) = false.
End Keyed.
End PySort.

(* ================================================================== *)
(** ** Effects: an output-and-abort monad *)

(** What the process does that can be observed from outside. *)
Inductive event :=
| EOpen (path : string)          (* [open(path, 'rb')] *)
| ECheckCall (cmd : string)      (* [subprocess.check_call(cmd, shell=True)] *)
| ECheckOutput (cmd : string)    (* [subprocess.check_output(cmd, shell=True)] *)
| EPrint (line : string).        (* [print(line)] *)

Inductive exn :=
| ValueError | IndexError | OSError | UnicodeDecodeError | CalledProcessError.

(** How a computation stops early: [exit(code)] or an uncaught exception. *)
Inductive abort :=
| SystemExit (code : Z)
| Uncaught (e : exn).

Inductive result (A : Type) :=
| Ok (a : A)
| Abort (why : abort).
Arguments Ok {A} a.
Arguments Abort {A} why.

(** A computation is the trace of events it produced and how it ended. *)
Definition M (A : Type) : Type := list event * result A.

Definition ret {A} (a : A) : M A := ([], Ok a).

Definition bind {A B} (m : M A) (f : A -> M B) : M B :=
  match m with
  | (t, Ok a) => let (t', r) := f a in ((t ++ t')%list, r)
  | (t, Abort why) => (t, Abort why)
  end.

Definition emit (e : event) : M unit := ([e], Ok tt).
Definition raise {A} (e : exn) : M A := ([], Abort (Uncaught e)).
Definition exit {A} (code : Z) : M A := ([], Abort (SystemExit code)).
Definition print (line : string) : M unit := emit (EPrint line).

Declare Scope py_scope.
Delimit Scope py_scope with py.
Notation "x <- m ;; k" := (bind m (fun x => k))
  (at level 100, m at next level, right associativity) : py_scope.
Notation "m ;; k" := (bind m (fun _ => k))
  (at level 100, right associativity) : py_scope.
Open Scope py_scope.

(** [for x in l: acc = f(acc, x)] *)
Fixpoint foldM {A B} (f : B -> A -> M B) (acc : B) (l : list A) : M B :=
  match l with
  | [] => ret acc
  | x :: l' => acc' <- f acc x ;; foldM f acc' l'
  end.

(** [for x in l: body(x)] *)
Definition for_ {A} (l : list A) (body : A -> M unit) : M unit :=
  foldM (fun _ x => body x) tt l.

Definition trace {A} (m : M A) : list event := fst m.
Definition outcome {A} (m : M A) : result A := snd m.

(** The lines written to standard output, in order. *)
Fixpoint stdout (t : list event) : list string :=
  match t with
  | [] => []
  | EPrint line :: t' => line :: stdout t'
  | _ :: t' => stdout t'
  end.

(** The shell commands that were run, in order. *)
Fixpoint commands (t : list event) : list string :=
  match t with
  | [] => []
  | ECheckCall cmd :: t' => cmd :: commands t'
  | ECheckOutput cmd :: t' => cmd :: commands t'
  | _ :: t' => commands t'
  end.

(* ================================================================== *)
(** ** External collaborators *)

(** The part of the [semantic_version] package the script uses.  [None]
    stands for the [ValueError] the constructors raise. *)
Class SemanticVersion := {
  Version : Type;
  Spec : Type;
  (** [semantic_version.Version(s, partial=True)] *)
  Version_partial : string -> option Version;
  (** [semantic_version.Spec(s)] *)
  Spec_new : string -> option Spec;
  (** [s.match(v)] *)
  Spec_match : Spec -> Version -> bool
}.

(** The file system and the shell.  Text is what [.decode('utf-8')]
    returns, [None] when the bytes do not decode. *)
Record World := {
  expanduser : string -> string;
  (** [None]: the file cannot be opened or read. *)
  file_bytes : string -> option (option string);
  (** For a command that can be started: its exit status is zero, and
      its captured standard output. *)
  shell : string -> bool * option string
}.

(* ================================================================== *)
(** ** The script *)

Definition FILE : string := "~/.git-status".

Definition USAGE : string :=
  "git_versions.py [flags] [spec]" ++ PyStr.nl ++
  "    Prints the latest versions of the git repositories" ++ PyStr.nl ++
  PyStr.nl ++
  "    -h, --help    Show this help" ++ PyStr.nl ++
  "        --nofetch Do not fetch git repo" ++ PyStr.nl ++
  "    " ++ PyStr.nl ++
  "    spec          She semantic version specification upon which to match " ++ PyStr.nl.

Definition fetch_command (repo : string) : string :=
  "(cd " ++ repo ++ "; git fetch;)".

Definition tags_command (repo : string) : string :=
  "(cd " ++ repo ++ "; git tag -l)".

(** The string holds a NUL character. *)
Definition has_nul (s : string) : bool := PyStr.mem (ascii_of_nat 0) s.

(** [if spec:] on an optional string: the string when it is truthy. *)
Definition if_str (spec : option string) : option string :=
  match spec with
  | Some s => if PyStr.truthy s then Some s else None
  | None => None
  end.

(** [versions[-1] if versions else None] *)
Definition last_or_none (versions : list string) : option string :=
  match versions with
  | [] => None
  | _ :: _ => Some (last versions EmptyString)
  end.

(** [version if version else 'no match'] *)
Definition version_field (version : option string) : string :=
  match if_str version with
  | Some v => v
  | None => "no match"
  end.

Section Script.
Context {semver : SemanticVersion}.
(** [repr] of a [str], as [%s] applies it to the elements of a list. *)
Variable repr : string -> string.
Variable os : World.

(** ['%s' % versions] for a list of strings. *)
Definition list_str (versions : list string) : string :=
  "[" ++ PyStr.join ", " (map repr versions) ++ "]".

Definition open_read_decode (path : string) : M string :=
  emit (EOpen path) ;;
  match file_bytes os path with
  | None => raise OSError
  | Some None => raise UnicodeDecodeError
  | Some (Some text) => ret text
  end.

(** [subprocess.check_call(cmd, shell=True)].  A command line that holds
    a NUL character is never started: [subprocess] raises
    [ValueError('embedded null byte')]. *)
Definition check_call (cmd : string) : M unit :=
  emit (ECheckCall cmd) ;;
  if has_nul cmd then raise ValueError
  else if fst (shell os cmd) then ret tt else raise CalledProcessError.

(** [subprocess.check_output(cmd, shell=True)] followed by
    [.decode('utf-8')]. *)
Definition check_output_decode (cmd : string) : M string :=
  emit (ECheckOutput cmd) ;;
  if has_nul cmd then raise ValueError
  else
    match shell os cmd with
    | (false, _) => raise CalledProcessError
    | (true, None) => raise UnicodeDecodeError
    | (true, Some text) => ret text
    end.

(** Body of [for tag in tags] (lines 56-76); [spec] is already
    stripped. *)
Definition tag_body (spec : option string) (versions : list string)
    (tag : string) : M (list string) :=
  let tag := PyStr.lstrip "v" tag in
  if negb (PyStr.truthy tag) then ret versions
  else
    match Version_partial tag with
    | None => ret versions
    | Some sem_tag =>
        match if_str spec with
        | Some sp =>
            match Spec_new sp with
            | None => raise ValueError
            | Some s =>
                if negb (Spec_match s sem_tag) then ret versions
                else ret (versions ++ [tag])%list
            end
        | None => ret (versions ++ [tag])%list
        end
    end.

(** Lines 78-82.  Every retained tag is non-empty, so the
    [StrictVersion] constructor always runs [parse] on it. *)
Definition sort_versions (repo : string) (versions : list string)
  : M (list string) :=
  match PySort.sort StrictVersion.__lt__ StrictVersion.parse versions with
  | Some sorted => ret sorted
  | None =>
      print ("Invalid version in repo " ++ repo ++ ": " ++ list_str versions) ;;
      exit (-1)
  end.

(** Lines 43-87: what is done with a line that is a repository path. *)
Definition process_repo (spec : option string) (fetch : bool) (repo : string)
  : M unit :=
  (if fetch then check_call (fetch_command repo) else ret tt) ;;
  output <- check_output_decode (tags_command repo) ;;
  let tags := PyStr.split (ascii_of_nat 10) output in
  versions <- foldM (tag_body spec) [] tags ;;
  versions <- sort_versions repo versions ;;
  let version := last_or_none versions in
  print (basename repo ++ ": " ++ version_field version).

(** Body of [for repo in repos] (lines 34-87). *)
Definition repo_body (spec : option string) (fetch : bool) (repo : string)
  : M unit :=
  match repo with
  | EmptyString => ret tt
  | String c _ =>
      if Ascii.eqb c "#" then print EmptyString
      else process_repo spec fetch repo
  end.

(** Lines 23-25: [if spec: spec = spec.lstrip('v')]. *)
Definition normalize_spec (spec : option string) : option string :=
  match if_str spec with
  | Some s => Some (PyStr.lstrip "v" s)
  | None => spec
  end.

Definition print_versions (spec : option string) (fetch : bool) : M unit :=
  let spec := normalize_spec spec in
  text <- open_read_decode (expanduser os FILE) ;;
  let repos := PyStr.split (ascii_of_nat 10) text in
  for_ repos (repo_body spec fetch).

(** [[_ for _ in l if _[0] != '-']]: indexing an empty argument raises
    [IndexError]. *)
Fixpoint non_flags (l : list string) : M (list string) :=
  match l with
  | [] => ret []
  | a :: l' =>
      match a with
      | EmptyString => raise IndexError
      | String c _ =>
          rest <- non_flags l' ;;
          ret (if negb (Ascii.eqb c "-") then a :: rest else rest)
      end
  end.

Definition main (argv : list string) : M unit :=
  if PyStr.contains "-h" argv || PyStr.contains "--help" argv then
    print USAGE ;; exit (-1)
  else
    let fetch := negb (PyStr.contains "--nofetch" argv) in
    args <- non_flags (tl argv) ;;
    let spec := hd_error args in
    print_versions spec fetch.

End Script.

(* ================================================================== *)
(** ** An instance of the collaborators, for concrete runs

    The theorems below hold for every [SemanticVersion] instance, every
    [repr] and every [World].  To run the script on concrete inputs we fix
    one: partial versions [major[.minor[.patch]][-pre][+build]] without
    leading zeros, and range expressions made of one comparator followed by
    such a version, compared numerically on [major.minor.patch]. *)

Module Sample.

Record version := mkv {
  major : N;
  minor : option N;
  patch : option N;
  pre : option string;
  build : option string
}.

Inductive comparator := Lt_ | Le_ | Gt_ | Ge_ | Eq_ | Ne_.

Definition no_leading_zero (d : string) : bool :=
  match d with
  | String "0" (String _ _) => false
  | _ => true
  end.

Definition number (s : string) : option (N * string) :=
  match StrictVersion.span_digits s with
  | (EmptyString, _) => None
  | (d, r) => if no_leading_zero d then Some (StrictVersion.int d, r) else None
  end.

(** [(?:\.(\d+))?] *)
Definition component (s : string) : option (option N * string) :=
  match s with
  | String "." s' =>
      match number s' with
      | Some (n, r) => Some (Some n, r)
      | None => None
      end
  | _ => Some (None, s)
  end.

Definition is_ident_char (c : ascii) : bool :=
  let n := nat_of_ascii c in
  StrictVersion.is_digit c
  || ((65 <=? n)%nat && (n <=? 90)%nat)
  || ((97 <=? n)%nat && (n <=? 122)%nat)
  || Ascii.eqb c "." || Ascii.eqb c "-".

Fixpoint span_ident (s : string) : string * string :=
  match s with
  | EmptyString => (EmptyString, EmptyString)
  | String c s' =>
      if is_ident_char c then
        let (d, r) := span_ident s' in (String c d, r)
      else (EmptyString, s)
  end.

(** An optional [mark] followed by characters of [[0-9a-zA-Z.-]]. *)
Definition tagged (mark : ascii) (s : string) : option string * string :=
  match s with
  | String c s' =>
      if Ascii.eqb c mark then let (d, r) := span_ident s' in (Some d, r)
      else (None, s)
  | EmptyString => (None, s)
  end.

Definition parse_partial (s : string) : option version :=
  match number s with
  | None => None
  | Some (ma, r0) =>
      match component r0 with
      | None => None
      | Some (mi, r1) =>
          match (match mi with Some _ => component r1 | None => Some (None, r1) end) with
          | None => None
          | Some (pa, r2) =>
              let (p, r3) := tagged "-" r2 in
              let (b, r4) := tagged "+" r3 in
              if String.eqb r4 EmptyString then Some (mkv ma mi pa p b) else None
          end
      end
  end.

Definition parse_spec (s : string) : option (comparator * version) :=
  let with_op (op : comparator) (rest : string) :=
    match parse_partial rest with
    | Some v => Some (op, v)
    | None => None
    end in
  match s with
  | String "<" (String "=" r) => with_op Le_ r
  | String ">" (String "=" r) => with_op Ge_ r
  | String "=" (String "=" r) => with_op Eq_ r
  | String "!" (String "=" r) => with_op Ne_ r
  | String "<" r => with_op Lt_ r
  | String ">" r => with_op Gt_ r
  | _ => None
  end.

Definition triple (v : version) : N * N * N :=
  (major v,
   match minor v with Some n => n | None => 0%N end,
   match patch v with Some n => n | None => 0%N end).

Definition matches (s : comparator * version) (v : version) : bool :=
  let a := triple v in
  let b := triple (snd s) in
  match fst s with
  | Lt_ => StrictVersion.version_ltb a b
  | Le_ => negb (StrictVersion.version_ltb b a)
  | Gt_ => StrictVersion.version_ltb b a
  | Ge_ => negb (StrictVersion.version_ltb a b)
  | Eq_ => StrictVersion.version_eqb a b
  | Ne_ => negb (StrictVersion.version_eqb a b)
  end.

#[local] Instance lib : SemanticVersion := {|
  Version := version;
  Spec := comparator * version;
  Version_partial := parse_partial;
  Spec_new := parse_spec;
  Spec_match := matches
|}.

(** [repr] of a string that has no quote, backslash or control
    character. *)
Definition quote (s : string) : string := "'" ++ s ++ "'".

Fixpoint lookup (k : string) (l : list (string * string)) : option string :=
  match l with
  | [] => None
  | (k', v) :: l' => if String.eqb k k' then Some v else lookup k l'
  end.

(** A machine whose config file holds [config] and where [git tag -l] in
    repository [r] prints [tags r]; commands in other directories fail. *)
Definition world (config : string) (tags : list (string * string)) : World := {|
  expanduser := fun p => p;
  file_bytes := fun p => if String.eqb p FILE then Some (Some config) else None;
  shell := fun cmd =>
    match lookup cmd (map (fun rt => (tags_command (fst rt), snd rt)) tags) with
    | Some out => (true, Some out)
    | None =>
        (existsb (fun rt => String.eqb cmd (fetch_command (fst rt))) tags, Some EmptyString)
    end
|}.

Definition run (config : string) (tags : list (string * string))
    (argv : list string) : M unit :=
  main quote (world config tags) argv.

Definition lines (l : list string) : string :=
  PyStr.join PyStr.nl l.

(** Two repositories under a comment line, and some tag listings. *)
Definition repoA : string := "/src/repoA".
Definition repoB : string := "/src/tools/repoB".

Definition config : string := lines [repoA; ""; "# tools"; repoB].

Definition tags_numeric : string := lines ["10.0.0"; "2.0.0"; "v1.2"; ""].
Definition tags_junk : string := lines ["notaversion"; "v"; ""].
Definition tags_rc : string := lines ["1.0.0"; "1.2.3-rc1"; ""].
Definition tags_single : string := lines ["v1.0.0"; "1"; ""].

Definition machine (tagsA tagsB : string) : World :=
  world config [(repoA, tagsA); (repoB, tagsB)].

(** A machine without a readable config file. *)
Definition no_config : World := {|
  expanduser := fun p => p;
  file_bytes := fun _ => None;
  shell := fun _ => (false, None)
|}.

(** A config line with a NUL character in it. *)
Definition nul_line : string := "/src/" ++ String (ascii_of_nat 0) "repoA".

(** A machine on which only [repoA] is a git checkout. *)
Definition half_machine : World := world config [(repoA, tags_numeric)].

(** Two tags with the same strict key, and a lower one. *)
Definition tags_ties : string := lines ["1.2"; "v1.2.0"; "1.1.9"; ""].

(** The parsed form of the range [<2.0.0]. *)
Definition below_2 : comparator * version :=
  (Lt_, mkv 2 (Some 0%N) (Some 0%N) None None).

End Sample.

(* ================================================================== *)
(** ** Vocabulary for the statements *)

(** [n] copies of the letter [v]. *)
Fixpoint vs (n : nat) : string :=
  match n with
  | O => EmptyString
  | S n' => String "v" (vs n')
  end.

Definition starts_with_v (s : string) : bool :=
  match s with
  | String c _ => Ascii.eqb c "v"
  | EmptyString => false
  end.

(** Every character is an ASCII digit. *)
Fixpoint all_digits (d : string) : bool :=
  match d with
  | EmptyString => true
  | String c d' => StrictVersion.is_digit c && all_digits d'
  end.

(** The string has no newline: printing it writes exactly one line. *)
Definition single_line (s : string) : bool :=
  negb (PyStr.mem (ascii_of_nat 10) s).

(** A config line that is treated as a repository path. *)
Definition is_repo_line (repo : string) : Prop :=
  match repo with
  | EmptyString => False
  | String c _ => c <> "#"%char
  end.

(** The events of a repository before its tags are looked at. *)
Definition repo_prefix (fetch : bool) (repo : string) : list event :=
  ((if fetch then [ECheckCall (fetch_command repo)] else [])
   ++ [ECheckOutput (tags_command repo)])%list.

(** The shell commands a config line gives rise to. *)
Definition line_commands (fetch : bool) (line : string) : list string :=
  match line with
  | EmptyString => []
  | String c _ =>
      if Ascii.eqb c "#" then []
      else ((if fetch then [fetch_command line] else []) ++ [tags_command line])%list
  end.

Section Vocabulary.
Context {semver : SemanticVersion}.
Variable repr : string -> string.
Variable os : World.

(** The fetch (when enabled) and the tag listing of [repo] both succeed,
    and the listing prints [output].  Commands that succeed were started:
    the path holds no NUL character. *)
Definition commands_succeed (fetch : bool) (repo output : string) : Prop :=
  has_nul repo = false
  /\ (fetch = true -> fst (shell os (fetch_command repo)) = true)
  /\ shell os (tags_command repo) = (true, Some output).

(** The candidate tags of a listing. *)
Definition tags_of (output : string) : list string :=
  PyStr.split (ascii_of_nat 10) output.

(** The stripped tag is non-empty and a loose semantic version. *)
Definition loose (tag : string) : bool :=
  PyStr.truthy (PyStr.lstrip "v" tag)
  && match Version_partial (PyStr.lstrip "v" tag) with
     | Some _ => true
     | None => false
     end.

(** Version string [v] satisfies the (stripped) specification, or there
    is none. *)
Definition in_range (spec : option string) (v : string) : Prop :=
  match if_str spec with
  | None => True
  | Some sp =>
      exists s sem,
        Spec_new sp = Some s /\ Version_partial v = Some sem
        /\ Spec_match s sem = true
  end.

(** [v] is what the loop retains for [tag]. *)
Definition retained_from (spec : option string) (tag v : string) : Prop :=
  v = PyStr.lstrip "v" tag /\ loose tag = true /\ in_range spec v.

(** The loop skips [tag]: empty once stripped, not a loose semantic
    version, or outside the range of a well-formed specification. *)
Definition skipped (spec : option string) (tag : string) : Prop :=
  loose tag = false
  \/ exists sp s sem,
       if_str spec = Some sp /\ Spec_new sp = Some s
       /\ Version_partial (PyStr.lstrip "v" tag) = Some sem
       /\ Spec_match s sem = false.

(** No specification, or one that [Spec] accepts. *)
Definition spec_ok (spec : option string) : Prop :=
  match if_str spec with
  | None => True
  | Some sp => exists s, Spec_new sp = Some s
  end.

(** The diagnostic of line 81. *)
Definition diagnostic (repo : string) (versions : list string) : string :=
  "Invalid version in repo " ++ repo ++ ": " ++ list_str repr versions.

(** The result line of lines 86-87. *)
Definition result_line (repo field : string) : string :=
  basename repo ++ ": " ++ field.

(** What one config line may contribute to standard output. *)
Definition line_shape (spec : option string) (line : string)
    (out : list string) : Prop :=
  match line with
  | EmptyString => out = []
  | String c _ =>
      if Ascii.eqb c "#" then out = [EmptyString]
      else
        exists field,
          out = [result_line line field]
          /\ (field = "no match"
              \/ exists output tag,
                   shell os (tags_command line) = (true, Some output)
                   /\ In tag (tags_of output)
                   /\ retained_from spec tag field
                   /\ StrictVersion.parse field <> None)
  end.

End Vocabulary.

(* ================================================================== *)
(** ** Vocabulary for further properties *)

Definition is_check_call (e : event) : bool :=
  match e with
  | ECheckCall _ => true
  | _ => false
  end.

(** The argument begins with a dash. *)
Definition is_flag (a : string) : bool :=
  match a with
  | String c _ => Ascii.eqb c "-"
  | EmptyString => false
  end.

Definition prefix_of {A : Type} (p l : list A) : Prop :=
  exists rest, l = (p ++ rest)%list.

Section MoreVocabulary.
Context {semver : SemanticVersion}.

(** The tag passes every filter of the loop. *)
Definition keeps (spec : option string) (tag : string) : bool :=
  loose tag
  && match if_str spec with
     | None => true
     | Some sp =>
         match Spec_new sp, Version_partial (PyStr.lstrip "v" tag) with
         | Some s, Some sem => Spec_match s sem
         | _, _ => false
         end
     end.

End MoreVocabulary.

(* ================================================================== *)
(** ** Running the embedding *)

Example strict_parse_ex1 :
  StrictVersion.parse "10.0.0" = Some (StrictVersion.mk (10, 0, 0)%N None).
Proof. reflexivity. Qed.

Example strict_parse_ex2 :
  StrictVersion.parse "1.2.3-rc1" = None /\ StrictVersion.parse "1" = None
  /\ StrictVersion.parse "1.2" = Some (StrictVersion.mk (1, 2, 0)%N None)
  /\ StrictVersion.parse "0.5b3"
     = Some (StrictVersion.mk (0, 5, 0)%N (Some ("b"%char, 3%N)))
  /\ StrictVersion.parse "2.7.2.2" = None /\ StrictVersion.parse "1.3.a4" = None
  /\ StrictVersion.parse "1.3c4" = None.
Proof. repeat split; reflexivity. Qed.

Example sort_ex1 :
  PySort.sort StrictVersion.__lt__ StrictVersion.parse ["10.0.0"; "2.0.0"; "1.2"; "1.2.0"]
  = Some ["1.2"; "1.2.0"; "2.0.0"; "10.0.0"].
Proof. reflexivity. Qed.

Example basename_ex : basename "/home/u/src/repoA" = "repoA" /\ basename "repoB" = "repoB"
  /\ basename "a/b/" = "".
Proof. repeat split; reflexivity. Qed.

Example split_ex : PyStr.split (ascii_of_nat 10) ("a" ++ PyStr.nl ++ PyStr.nl ++ "b" ++ PyStr.nl)
  = ["a"; ""; "b"; ""].
Proof. reflexivity. Qed.

Example sample_parse :
  Sample.parse_partial "1.2.3-rc1" = Some (Sample.mkv 1 (Some 2%N) (Some 3%N) (Some "rc1") None)
  /\ Sample.parse_partial "1" = Some (Sample.mkv 1 None None None None)
  /\ Sample.parse_partial "notaversion" = None
  /\ Sample.parse_partial "v1.2.3" = None
  /\ Sample.parse_partial "01.2.3" = None.
Proof. repeat split; reflexivity. Qed.

(** End-to-end scenario 1 of the specification. *)
Example scenario_1 :
  let m := Sample.run (Sample.lines ["repoA"; "#comment"; "repoB"])
             [("repoA", Sample.lines ["v1.0.0"; "v1.2.0"; ""]);
              ("repoB", Sample.lines ["1.0.0"; "2.0.0"; "notaversion"; ""])]
             ["git_versions.py"] in
  stdout (trace m) = ["repoA: 1.2.0"; ""; "repoB: 2.0.0"] /\ outcome m = Ok tt.
Proof. vm_compute. split; reflexivity. Qed.

(** End-to-end scenario 2 of the specification. *)
Example scenario_2 :
  let m := Sample.run (Sample.lines ["repoA"; "#comment"; "repoB"])
             [("repoA", Sample.lines ["v1.0.0"; "v1.2.0"; ""]);
              ("repoB", Sample.lines ["1.0.0"; "2.0.0"; "notaversion"; ""])]
             ["git_versions.py"; "<2.0.0"] in
  stdout (trace m) = ["repoA: 1.2.0"; ""; "repoB: 1.0.0"] /\ outcome m = Ok tt.
Proof. vm_compute. split; reflexivity. Qed.

(** End-to-end scenarios 3 and 4: no tags, and [--nofetch]. *)
Example scenario_3_4 :
  let m := Sample.run "/src/repoA" [("/src/repoA", "")]
             ["git_versions.py"; "--nofetch"] in
  trace m = [EOpen "~/.git-status"; ECheckOutput "(cd /src/repoA; git tag -l)";
             EPrint "repoA: no match"]
  /\ outcome m = Ok tt.
Proof. vm_compute. split; reflexivity. Qed.

(* ================================================================== *)
(** End-to-end scenario 5: nothing is printed when the config file
    cannot be read. *)
Example scenario_5 :
  main (semver := Sample.lib) Sample.quote Sample.no_config ["git_versions.py"]
  = ([EOpen "~/.git-status"], Abort (Uncaught OSError)).
Proof. reflexivity. Qed.

(** [$] also matches before a final newline. *)
Example strict_parse_final_newline :
  StrictVersion.parse ("1.2" ++ PyStr.nl)
  = Some (StrictVersion.mk (1, 2, 0)%N None)
  /\ StrictVersion.parse ("1.2" ++ PyStr.nl ++ PyStr.nl) = None.
Proof. split; reflexivity. Qed.

(* ================================================================== *)
(** ** The order of [StrictVersion] *)

Module StrictOrderFacts.
Import StrictVersion StrictOrder.

Ltac crush :=
  unfold le, triple_le, __lt__, _cmp, version_eqb, version_ltb, pre_eqb, pre_ltb in *;
  repeat match goal with
  | x : t |- _ => destruct x as [[[? ?] ?] [[? ?]|]]
  end;
  simpl in *;
  repeat match goal with
  | |- context [(?a =? ?b)%N] => destruct (N.eqb_spec a b); subst; simpl in *
  | H : context [(?a =? ?b)%N] |- _ => destruct (N.eqb_spec a b); subst; simpl in *
  | |- context [Ascii.eqb ?a ?b] => destruct (Ascii.eqb_spec a b); subst; simpl in *
  | H : context [Ascii.eqb ?a ?b] |- _ => destruct (Ascii.eqb_spec a b); subst; simpl in *
  | |- context [(?a <? ?b)%N] => destruct (N.ltb_spec a b); simpl in *
  | H : context [(?a <? ?b)%N] |- _ => destruct (N.ltb_spec a b); simpl in *
  | |- context [(?a <? ?b)%nat] => destruct (Nat.ltb_spec a b); simpl in *
  | H : context [(?a <? ?b)%nat] |- _ => destruct (Nat.ltb_spec a b); simpl in *
  end;
  try congruence; try lia.

Lemma lt_asym (a b : t) : __lt__ a b = true -> __lt__ b a = false.
Proof. crush. Qed.

Lemma le_trans (a b c : t) : le a b -> le b c -> le a c.
Proof.
  crush.
  all: try (exfalso;
            match goal with
            | H : nat_of_ascii ?x = nat_of_ascii ?y |- _ =>
                apply (f_equal ascii_of_nat) in H;
                rewrite !ascii_nat_embedding in H; congruence
            | H1 : (nat_of_ascii ?x <= nat_of_ascii ?y)%nat,
              H2 : (nat_of_ascii ?y <= nat_of_ascii ?x)%nat |- _ =>
                assert (E : nat_of_ascii x = nat_of_ascii y) by lia;
                apply (f_equal ascii_of_nat) in E;
                rewrite !ascii_nat_embedding in E; congruence
            end).
Qed.

Lemma le_triple_le (a b : t) : le a b -> triple_le a b.
Proof. crush. Qed.

End StrictOrderFacts.

(* ================================================================== *)
(** ** Facts about [list.sort(key=...)] *)

Module SortFacts.
Import PySort.

Section Facts.
Context {K A : Type}.
Variable lt : K -> K -> bool.
Hypothesis lt_asym : forall a b, lt a b = true -> lt b a = false.
Hypothesis le_trans :
  forall a b c, lt b a = false -> lt c b = false -> lt c a = false.

Lemma dle_refl (p : K * A) : dle lt p p.
Proof.
  unfold dle. destruct (lt (fst p) (fst p)) eqn:E; [|reflexivity].
  rewrite (lt_asym _ _ E) in E. discriminate.
Qed.

Lemma dle_trans (p q r : K * A) : dle lt p q -> dle lt q r -> dle lt p r.
Proof. unfold dle. intros H1 H2. exact (le_trans _ _ _ H1 H2). Qed.

Lemma insert_perm (x : K * A) l : Permutation (x :: l) (insert lt x l).
Proof.
  induction l as [|y l IH]; simpl; [reflexivity|].
  destruct (lt (fst x) (fst y)); [reflexivity|].
  rewrite perm_swap. now apply perm_skip.
Qed.

Lemma insert_hd (x : K * A) l :
  forall z, HdRel (dle lt) z l -> dle lt z x -> HdRel (dle lt) z (insert lt x l).
Proof.
  intros z Hz Hx. destruct l as [|y l]; simpl.
  - now constructor.
  - destruct (lt (fst x) (fst y)); constructor; [assumption|].
    now inversion Hz.
Qed.

Lemma insert_sorted (x : K * A) l :
  Sorted (dle lt) l -> Sorted (dle lt) (insert lt x l).
Proof.
  induction 1 as [|y l Hs IH Hhd]; simpl.
  - repeat constructor.
  - destruct (lt (fst x) (fst y)) eqn:E.
    + constructor; [now constructor|]. constructor.
      unfold dle. now apply lt_asym.
    + constructor; [assumption|]. now apply insert_hd.
Qed.

Lemma fold_insert_perm (l : list (K * A)) : forall acc,
  Permutation (acc ++ l) (fold_left (fun acc x => insert lt x acc) l acc).
Proof.
  induction l as [|x l IH]; intros acc; simpl.
  - now rewrite app_nil_r.
  - rewrite <- IH. rewrite <- insert_perm. simpl.
    symmetry. apply Permutation_middle.
Qed.

Lemma fold_insert_sorted (l : list (K * A)) : forall acc,
  Sorted (dle lt) acc ->
  Sorted (dle lt) (fold_left (fun acc x => insert lt x acc) l acc).
Proof.
  induction l as [|x l IH]; intros acc Hs; simpl; [assumption|].
  apply IH. now apply insert_sorted.
Qed.

Lemma sort_decorated_perm (l : list (K * A)) : Permutation l (sort_decorated lt l).
Proof. exact (fold_insert_perm l []). Qed.

Lemma sort_decorated_sorted (l : list (K * A)) :
  Sorted (dle lt) (sort_decorated lt l).
Proof. apply fold_insert_sorted. constructor. Qed.

(** In a sorted list nothing is greater than the last entry. *)
Lemma sorted_last_max (l : list (K * A)) d :
  Sorted (dle lt) l -> forall x, In x l -> dle lt x (last l d).
Proof.
  intros Hs. apply Sorted_StronglySorted in Hs; [|exact dle_trans].
  induction Hs as [|y l Hs IH Hall]; intros x Hin; [destruct Hin|].
  destruct l as [|z l'].
  - destruct Hin as [<-|[]]. apply dle_refl.
  - change (last (y :: z :: l') d) with (last (z :: l') d).
    destruct Hin as [<-|Hin]; [|now apply IH].
    apply dle_trans with z.
    + rewrite Forall_forall in Hall. apply Hall. now left.
    + apply IH. now left.
Qed.

Variable key : A -> option K.

Lemma decorate_some l d :
  decorate key l = Some d ->
  map snd d = l /\ Forall (fun p => key (snd p) = Some (fst p)) d.
Proof.
  revert d. induction l as [|x l IH]; simpl; intros d H.
  - inversion H. split; constructor.
  - destruct (key x) as [k|] eqn:Ek; [|discriminate].
    destruct (decorate key l) as [d'|]; [|discriminate].
    inversion H; subst. destruct (IH d' eq_refl) as [E F].
    split; simpl; [now rewrite E|]. now constructor.
Qed.

Lemma decorate_none l :
  decorate key l = None <-> exists x, In x l /\ key x = None.
Proof.
  induction l as [|x l IH]; simpl.
  - split; [discriminate|]. intros [x [[] _]].
  - destruct (key x) as [k|] eqn:Ek.
    + destruct (decorate key l) as [d'|].
      * split; [discriminate|]. intros [y [[<-|Hin] Hy]]; [congruence|].
        destruct IH as [_ IH]. discriminate IH. now exists y.
      * split; [|reflexivity]. intros _.
        destruct IH as [IH _]. destruct (IH eq_refl) as [y [Hin Hy]].
        exists y. split; [now right|assumption].
    + split; [|reflexivity]. intros _. exists x. split; [now left|assumption].
Qed.

(** The key of some element raises exactly when the sort does. *)
Lemma sort_none l :
  sort lt key l = None <-> exists x, In x l /\ key x = None.
Proof.
  unfold sort. rewrite <- decorate_none.
  destruct (decorate key l); split; congruence.
Qed.

Lemma sort_perm l s : sort lt key l = Some s -> Permutation l s.
Proof.
  unfold sort. destruct (decorate key l) as [d|] eqn:Ed; [|discriminate].
  intros H. inversion H; subst. destruct (decorate_some _ _ Ed) as [E _].
  rewrite <- E. apply Permutation_map, sort_decorated_perm.
Qed.

Lemma last_map_snd (l : list (K * A)) (p : K * A) :
  last (map snd l) (snd p) = snd (last l p).
Proof.
  induction l as [|x l IH]; [reflexivity|].
  destruct l as [|y l]; [reflexivity|]. exact IH.
Qed.

(** After a successful sort the last element carries a greatest key. *)
Lemma sort_last_max l s d :
  sort lt key l = Some s ->
  forall x, In x l ->
  exists kx kl, key x = Some kx /\ key (last s d) = Some kl /\ lt kl kx = false.
Proof.
  unfold sort. destruct (decorate key l) as [dl|] eqn:Ed; [|discriminate].
  intros H x Hin. inversion H; subst s; clear H.
  destruct (decorate_some _ _ Ed) as [E F]. subst l.
  apply in_map_iff in Hin. destruct Hin as [[kx x'] [Ex Hin]].
  simpl in Ex. subst x'.
  pose proof (sort_decorated_perm dl) as P.
  pose proof (sort_decorated_sorted dl) as S.
  assert (Hin' : In (kx, x) (sort_decorated lt dl))
    by (eapply Permutation_in; eassumption).
  pose proof (sorted_last_max _ (kx, d) S _ Hin') as Hle.
  assert (F' : Forall (fun p => key (snd p) = Some (fst p)) (sort_decorated lt dl))
    by (eapply Permutation_Forall; eassumption).
  rewrite Forall_forall in F, F'.
  assert (Hlast : In (last (sort_decorated lt dl) (kx, d)) (sort_decorated lt dl)).
  { destruct (sort_decorated lt dl) as [|z zs] eqn:Es; [destruct Hin'|].
    destruct (exists_last (l := z :: zs)) as [pre [a Ea]]; [discriminate|].
    rewrite Ea. rewrite last_last. apply in_or_app. right. now left. }
  exists kx, (fst (last (sort_decorated lt dl) (kx, d))).
  split; [exact (F _ Hin)|]. split.
  - change d with (snd (kx, d)). rewrite last_map_snd. exact (F' _ Hlast).
  - exact Hle.
Qed.

End Facts.
End SortFacts.

(* ================================================================== *)
(** ** Facts about the string operations *)

Module StrFacts.
Import PyStr.

Lemma lstrip_vs n t : lstrip "v" (vs n ++ t) = lstrip "v" t.
Proof. induction n as [|n IH]; [reflexivity|exact IH]. Qed.

Lemma lstrip_v_head t : starts_with_v (lstrip "v" t) = false.
Proof.
  induction t as [|c t IH]; [reflexivity|]. simpl.
  destruct (Ascii.eqb c "v") eqn:E; simpl; [exact IH|exact E].
Qed.

Lemma lstrip_v_fixed t : starts_with_v t = false -> lstrip "v" t = t.
Proof.
  destruct t as [|c t]; [reflexivity|]. simpl. intros ->. reflexivity.
Qed.

Lemma lstrip_v_idem t : lstrip "v" (lstrip "v" t) = lstrip "v" t.
Proof. apply lstrip_v_fixed, lstrip_v_head. Qed.

Lemma lstrip_v_split t : exists n, t = vs n ++ lstrip "v" t.
Proof.
  induction t as [|c t [n IH]]; [now exists 0|]. simpl.
  destruct (Ascii.eqb_spec c "v") as [->|Hc]; simpl.
  - exists (S n). simpl. now rewrite <- IH.
  - now exists 0.
Qed.

Lemma mem_app c a b : mem c (a ++ b) = mem c a || mem c b.
Proof.
  induction a as [|d a IH]; [reflexivity|]. simpl.
  now rewrite IH, orb_assoc.
Qed.

(** No piece of a split holds the separator. *)
Lemma split_no_sep sep s : Forall (fun x => mem sep x = false) (split sep s).
Proof.
  induction s as [|c s IH]; simpl.
  - now repeat constructor.
  - destruct (Ascii.eqb c sep) eqn:E.
    + now constructor.
    + destruct (split sep s) as [|w ws].
      * repeat constructor. simpl. now rewrite Ascii.eqb_sym, E.
      * inversion IH; subst. constructor; [|assumption].
        simpl. now rewrite Ascii.eqb_sym, E.
Qed.

Lemma lstrip_mem c chars s : mem c s = false -> mem c (lstrip chars s) = false.
Proof.
  induction s as [|d s IH]; [reflexivity|]. simpl.
  destruct (mem d chars); [|now intros H].
  intros H. apply orb_false_iff in H. now apply IH.
Qed.



End StrFacts.

(* ================================================================== *)
(** ** The code's version key against the numeric reading *)

Module NumericFacts.
Import StrictVersion.

Lemma append_nil_r s : s ++ EmptyString = s.
Proof. induction s as [|c s IH]; [reflexivity|]. simpl. now rewrite IH. Qed.


(** A character the code takes for a digit is a decimal digit with the
    value the code gives it, and neither a dot nor a pre-release letter. *)
Lemma digit_is_digit c :
  is_digit c = true ->
  Numeric.digit c = Some (digit_value c)
  /\ Ascii.eqb c "." = false
  /\ Ascii.eqb c "a" = false /\ Ascii.eqb c "b" = false.
Proof.
  destruct c as [[] [] [] [] [] [] [] []]; intros H; vm_compute in H;
    try discriminate H; vm_compute; repeat split; reflexivity.
Qed.

Lemma span_digits_spec s : forall d r,
  span_digits s = (d, r) -> s = d ++ r /\ all_digits d = true.
Proof.
  induction s as [|c s IH]; simpl; intros d r H.
  - inversion H. now split.
  - destruct (is_digit c) eqn:E.
    + destruct (span_digits s) as [d' r'] eqn:Es. inversion H; subst.
      destruct (IH _ _ eq_refl) as [-> Hd]. split; [reflexivity|].
      simpl. now rewrite E, Hd.
    + inversion H; subst. now split.
Qed.

Lemma number_spec s n r :
  number s = Some (n, r) ->
  exists d, s = d ++ r /\ all_digits d = true /\ d <> EmptyString /\ n = int d.
Proof.
  unfold number. destruct (span_digits s) as [d r'] eqn:E.
  destruct (span_digits_spec s d r' E) as [-> Hd].
  destruct d as [|c d]; [discriminate|]. intros H. inversion H; subst.
  exists (String c d). repeat split; [assumption|discriminate].
Qed.

Lemma weigh_int d :
  all_digits d = true ->
  forall acc, exists w,
    Numeric.weigh d = Some w
    /\ int_acc acc d = (acc * 10 ^ N.of_nat (String.length d) + w)%N.
Proof.
  induction d as [|c d IH]; intros H acc;
    cbn [Numeric.weigh int_acc all_digits String.length] in *.
  - exists 0%N. split; [reflexivity|]. simpl. lia.
  - apply andb_true_iff in H. destruct H as [Hc Hd].
    destruct (digit_is_digit c Hc) as [Ec _].
    destruct (IH Hd (10 * acc + digit_value c)%N) as [w [Ew Ei]].
    rewrite Ec, Ew.
    exists (digit_value c * 10 ^ N.of_nat (String.length d) + w)%N.
    split; [reflexivity|]. rewrite Ei.
    rewrite Nat2N.inj_succ, N.pow_succ_r'. ring.
Qed.

Lemma numeral_int d :
  all_digits d = true -> d <> EmptyString -> Numeric.numeral d = Some (int d).
Proof.
  intros Hd Hne. destruct d as [|c d]; [congruence|].
  unfold Numeric.numeral, int.
  destruct (weigh_int _ Hd 0%N) as [w [Ew Ei]]. rewrite Ew, Ei.
  f_equal; lia.
Qed.

Lemma release_digits d r :
  all_digits d = true -> Numeric.release (d ++ r) = d ++ Numeric.release r.
Proof.
  induction d as [|c d IH]; [reflexivity|]. simpl. intros H.
  apply andb_true_iff in H. destruct H as [Hc Hd].
  destruct (digit_is_digit c Hc) as [_ [_ [Ea Eb]]].
  now rewrite Ea, Eb, (IH Hd).
Qed.

Lemma fields_nonempty s : Numeric.fields s <> [].
Proof.
  destruct s as [|c s]; simpl; [discriminate|].
  destruct (Numeric.fields s); [discriminate|].
  destruct (Ascii.eqb c "."); discriminate.
Qed.

Lemma fields_dot r : Numeric.fields (String "." r) = EmptyString :: Numeric.fields r.
Proof.
  simpl. pose proof (fields_nonempty r).
  destruct (Numeric.fields r); congruence.
Qed.

Lemma fields_digits d r :
  all_digits d = true ->
  Numeric.fields (d ++ r)
  = match Numeric.fields r with
    | f :: fs => (d ++ f) :: fs
    | [] => [d]
    end.
Proof.
  intros Hd. pose proof (fields_nonempty r) as Hr.
  induction d as [|c d IH]; simpl.
  - destruct (Numeric.fields r); congruence.
  - simpl in Hd. apply andb_true_iff in Hd. destruct Hd as [Hc Hd].
    destruct (digit_is_digit c Hc) as [_ [Edot _]].
    rewrite (IH Hd), Edot. destruct (Numeric.fields r); congruence.
Qed.

(** What is left when the pre-release pattern matched is set aside by the
    numeric reading. *)
Lemma prerelease_release r pre :
  parse_prerelease r = Some pre ->
  single_line r = true ->
  Numeric.release r = EmptyString.
Proof.
  destruct r as [|c r']; [reflexivity|]. simpl.
  destruct (Ascii.eqb c "a" || Ascii.eqb c "b"); [reflexivity|].
  unfold at_end. simpl String.eqb at 1. cbn [orb].
  destruct (String.eqb_spec (String c r') PyStr.nl) as [E|_]; [|discriminate].
  intros _ Hs. rewrite E in Hs. discriminate Hs.
Qed.

(** The shape of a string that [parse] accepts. *)
Lemma parse_cases s k :
  parse s = Some k ->
  exists d1 d2 rest pre,
    all_digits d1 = true /\ d1 <> EmptyString
    /\ all_digits d2 = true /\ d2 <> EmptyString
    /\ parse_prerelease rest = Some pre
    /\ ((s = d1 ++ String "." (d2 ++ rest)
         /\ k = mk (int d1, int d2, 0%N) pre)
        \/ exists d3,
             all_digits d3 = true /\ d3 <> EmptyString
             /\ s = d1 ++ String "." (d2 ++ String "." (d3 ++ rest))
             /\ k = mk (int d1, int d2, int d3) pre).
Proof.
  unfold parse. intros H.
  destruct (number s) as [[major r]|] eqn:E1; [|discriminate H].
  destruct (number_spec _ _ _ E1) as [d1 [-> [H1 [N1 ->]]]].
  destruct r as [|c r1]; [discriminate H|].
  destruct c as [[] [] [] [] [] [] [] []]; try discriminate H.
  destruct (number r1) as [[minor r2]|] eqn:E2; [|discriminate H].
  destruct (number_spec _ _ _ E2) as [d2 [-> [H2 [N2 ->]]]].
  destruct r2 as [|c2 r3].
  - destruct (parse_prerelease EmptyString) as [pre|] eqn:Ep; [|discriminate H].
    inversion H. exists d1, d2, EmptyString, pre.
    repeat split; try assumption. left. now split.
  - destruct c2 as [[] [] [] [] [] [] [] []];
      try (match type of H with
           | match parse_prerelease ?r with _ => _ end = _ =>
               destruct (parse_prerelease r) as [pre|] eqn:Ep;
               [|discriminate H]; inversion H; exists d1, d2, r, pre;
               repeat split; try assumption; left; now split
           end).
    destruct (number r3) as [[patch r4]|] eqn:E3; [|discriminate H].
    destruct (number_spec _ _ _ E3) as [d3 [-> [H3 [N3 ->]]]].
    destruct (parse_prerelease r4) as [pre|] eqn:Ep; [|discriminate H].
    inversion H. exists d1, d2, r4, pre. repeat split; try assumption.
    right. exists d3. now repeat split.
Qed.

Lemma single_line_app a b :
  single_line (a ++ b) = true -> single_line a = true /\ single_line b = true.
Proof.
  unfold single_line. rewrite StrFacts.mem_app, negb_orb.
  apply andb_true_iff.
Qed.

(** The version tuple the code computes is the numeric reading of the
    string. *)
Lemma parse_reads s k :
  parse s = Some k -> single_line s = true ->
  Numeric.triple s = Some (version k).
Proof.
  intros H Hs.
  destruct (parse_cases s k H)
    as [d1 [d2 [rest [pre [H1 [N1 [H2 [N2 [Hp Hc]]]]]]]]].
  unfold Numeric.triple.
  destruct Hc as [[-> ->]|[d3 [H3 [N3 [-> ->]]]]].
  - apply single_line_app in Hs. destruct Hs as [_ Hs].
    change (String "." (d2 ++ rest)) with ("." ++ (d2 ++ rest)) in Hs.
    apply single_line_app in Hs. destruct Hs as [_ Hs].
    apply single_line_app in Hs. destruct Hs as [_ Hs].
    rewrite (release_digits d1 _ H1). simpl Numeric.release.
    rewrite (release_digits d2 _ H2), (prerelease_release rest pre Hp Hs).
    rewrite (fields_digits d1 _ H1), fields_dot, (fields_digits d2 _ H2).
    simpl. rewrite !append_nil_r.
    now rewrite (numeral_int d1 H1 N1), (numeral_int d2 H2 N2).
  - apply single_line_app in Hs. destruct Hs as [_ Hs].
    change (String "." (d2 ++ String "." (d3 ++ rest)))
      with ("." ++ (d2 ++ String "." (d3 ++ rest))) in Hs.
    apply single_line_app in Hs. destruct Hs as [_ Hs].
    apply single_line_app in Hs. destruct Hs as [_ Hs].
    change (String "." (d3 ++ rest)) with ("." ++ (d3 ++ rest)) in Hs.
    apply single_line_app in Hs. destruct Hs as [_ Hs].
    apply single_line_app in Hs. destruct Hs as [_ Hs].
    rewrite (release_digits d1 _ H1). simpl Numeric.release.
    rewrite (release_digits d2 _ H2). simpl Numeric.release.
    rewrite (release_digits d3 _ H3), (prerelease_release rest pre Hp Hs).
    rewrite (fields_digits d1 _ H1), fields_dot, (fields_digits d2 _ H2),
      fields_dot, (fields_digits d3 _ H3).
    simpl. rewrite !append_nil_r.
    now rewrite (numeral_int d1 H1 N1), (numeral_int d2 H2 N2),
      (numeral_int d3 H3 N3).
Qed.

(** The code's tuple comparison is the numeric order. *)
Lemma version_ltb_lt a b : version_ltb a b = true <-> Numeric.lt a b.
Proof.
  destruct a as [[a1 a2] a3], b as [[b1 b2] b3]. unfold version_ltb, Numeric.lt.
  destruct (N.eqb_spec a1 b1); simpl;
    [destruct (N.eqb_spec a2 b2); simpl|];
    rewrite N.ltb_lt; lia.
Qed.

Lemma triple_le_le (kt kl : t) :
  StrictOrder.triple_le kt kl -> Numeric.le (version kt) (version kl).
Proof.
  unfold StrictOrder.triple_le, Numeric.le. intros H.
  destruct (version kt) as [[a1 a2] a3] eqn:Ea,
           (version kl) as [[b1 b2] b3] eqn:Eb.
  assert (Hn : ~ Numeric.lt (b1, b2, b3) (a1, a2, a3)).
  { intros L. apply version_ltb_lt in L. congruence. }
  unfold Numeric.lt in *.
  destruct (N.eq_dec a1 b1) as [->|]; [|right; lia].
  destruct (N.eq_dec a2 b2) as [->|]; [|right; lia].
  destruct (N.eq_dec a3 b3) as [->|]; [now left|right; lia].
Qed.




End NumericFacts.

(* ================================================================== *)
(** ** Facts about the monad and the loops *)

Section MonadFacts.
Context {A : Type}.

Lemma bind_ret_l {B} (a : A) (f : A -> M B) : bind (ret a) f = f a.
Proof. unfold bind, ret. destruct (f a). reflexivity. Qed.

Lemma for_nil (body : A -> M unit) : for_ [] body = ret tt.
Proof. reflexivity. Qed.

Lemma for_cons x l (body : A -> M unit) :
  for_ (x :: l) body = (body x ;; for_ l body).
Proof.
  unfold for_. simpl. unfold bind.
  destruct (body x) as [t [[]|why]]; reflexivity.
Qed.

(** A loop whose body aborts at [x] stops there; nothing after runs. *)
Lemma for_abort pre x post (body : A -> M unit) t0 t1 why :
  for_ pre body = (t0, Ok tt) ->
  body x = (t1, Abort why) ->
  for_ (pre ++ x :: post) body = ((t0 ++ t1)%list, Abort why).
Proof.
  revert t0. induction pre as [|y pre IH]; intros t0 Hpre Hx.
  - rewrite for_nil in Hpre. inversion Hpre; subst. simpl.
    rewrite for_cons, Hx. reflexivity.
  - simpl. rewrite for_cons in *.
    destruct (body y) as [ty [[]|w]]; simpl in *.
    + destruct (for_ pre body) as [tp [[]|w]] eqn:Ep; simpl in Hpre;
        [|discriminate].
      inversion Hpre; subst. rewrite (IH tp eq_refl Hx). simpl.
      now rewrite app_assoc.
    + discriminate.
Qed.

End MonadFacts.

Lemma stdout_app t1 t2 : stdout (t1 ++ t2) = (stdout t1 ++ stdout t2)%list.
Proof.
  induction t1 as [|e t1 IH]; [reflexivity|].
  destruct e; simpl; now rewrite IH.
Qed.

Lemma commands_app t1 t2 : commands (t1 ++ t2) = (commands t1 ++ commands t2)%list.
Proof.
  induction t1 as [|e t1 IH]; [reflexivity|].
  destruct e; simpl; now rewrite IH.
Qed.


(* ================================================================== *)
(** ** Facts about the tag loop and the repository step *)

Section ScriptFacts.
Context {semver : SemanticVersion}.
Variable repr : string -> string.
Variable os : World.

(** The four ways through the loop body. *)
Lemma tag_body_cases spec versions tag :
  (tag_body spec versions tag = ret versions /\ skipped spec tag)
  \/ (tag_body spec versions tag = ret (versions ++ [PyStr.lstrip "v" tag])%list
      /\ retained_from spec tag (PyStr.lstrip "v" tag))
  \/ (tag_body spec versions tag = raise ValueError
      /\ loose tag = true
      /\ exists sp, if_str spec = Some sp /\ Spec_new sp = None).
Proof.
  unfold tag_body, skipped, retained_from, in_range, loose.
  destruct (PyStr.truthy (PyStr.lstrip "v" tag)); simpl; [|now left; split; [|left]].
  destruct (Version_partial (PyStr.lstrip "v" tag)) as [sem|] eqn:Ev;
    [|now left; split; [|left]].
  destruct (if_str spec) as [sp|] eqn:Es; [|now right; left].
  destruct (Spec_new sp) as [s|] eqn:En.
  - destruct (Spec_match s sem) eqn:Em; simpl.
    + right; left. repeat split. now exists s, sem.
    + left. split; [reflexivity|]. right. now exists sp, s, sem.
  - right; right. repeat split. now exists sp.
Qed.

Lemma tag_loop_trace spec tags : forall acc,
  trace (foldM (tag_body spec) acc tags) = [].
Proof.
  induction tags as [|tag tags IH]; intros acc; [reflexivity|]. simpl.
  destruct (tag_body_cases spec acc tag) as [[E _]|[[E _]|[E _]]]; rewrite E.
  - rewrite bind_ret_l. apply IH.
  - rewrite bind_ret_l. apply IH.
  - reflexivity.
Qed.

(** Everything retained comes from a tag that passed every filter. *)
Lemma tag_loop_sound spec tags : forall acc versions,
  outcome (foldM (tag_body spec) acc tags) = Ok versions ->
  forall v, In v versions ->
    In v acc \/ exists tag, In tag tags /\ retained_from spec tag v.
Proof.
  induction tags as [|tag tags IH]; intros acc versions H v Hv.
  - simpl in H. inversion H; subst. now left.
  - simpl in H.
    destruct (tag_body_cases spec acc tag) as [[E _]|[[E R]|[E _]]];
      rewrite E in H.
    + rewrite bind_ret_l in H. destruct (IH _ _ H v Hv) as [Hin|[t [Ht Hr]]].
      * now left.
      * right. exists t. split; [now right|assumption].
    + rewrite bind_ret_l in H. destruct (IH _ _ H v Hv) as [Hin|[t [Ht Hr]]].
      * apply in_app_or in Hin. destruct Hin as [Hin|[<-|[]]]; [now left|].
        right. exists tag. split; [now left|assumption].
      * right. exists t. split; [now right|assumption].
    + discriminate.
Qed.

(** Every tag that passes every filter is retained. *)
Lemma tag_loop_complete spec tags : forall acc versions,
  outcome (foldM (tag_body spec) acc tags) = Ok versions ->
  (forall v, In v acc -> In v versions)
  /\ forall tag v, In tag tags -> retained_from spec tag v -> In v versions.
Proof.
  induction tags as [|tag tags IH]; intros acc versions H.
  - simpl in H. inversion H; subst. split; [auto|]. intros ? ? [].
  - simpl in H.
    destruct (tag_body_cases spec acc tag) as [[E S]|[[E R]|[E _]]];
      rewrite E in H.
    + rewrite bind_ret_l in H. destruct (IH _ _ H) as [Hacc Htags].
      split; [assumption|]. intros t v [<-|Ht] Hr; [|now apply (Htags t)].
      exfalso. destruct Hr as [-> [Hl Hr]]. destruct S as [S|[sp [s [sem [Es [En [Ev Em]]]]]]].
      * congruence.
      * unfold in_range in Hr. rewrite Es in Hr.
        destruct Hr as [s' [sem' [En' [Ev' Em']]]]. congruence.
    + rewrite bind_ret_l in H. destruct (IH _ _ H) as [Hacc Htags].
      split.
      * intros v Hv. apply Hacc, in_or_app. now left.
      * intros t v [<-|Ht] Hr; [|now apply (Htags t)].
        destruct Hr as [-> _]. apply Hacc, in_or_app. right. now left.
    + discriminate.
Qed.

(** With no specification or a well-formed one the loop cannot raise. *)
Lemma tag_loop_total spec tags : spec_ok spec -> forall acc,
  exists versions, outcome (foldM (tag_body spec) acc tags) = Ok versions.
Proof.
  intros Hok. induction tags as [|tag tags IH]; intros acc.
  - now exists acc.
  - simpl.
    destruct (tag_body_cases spec acc tag) as [[E _]|[[E _]|[E [_ [sp [Es En]]]]]];
      rewrite E.
    + rewrite bind_ret_l. apply IH.
    + rewrite bind_ret_l. apply IH.
    + exfalso. unfold spec_ok in Hok. rewrite Es in Hok.
      destruct Hok as [s Hs]. congruence.
Qed.

(** When every tag is skipped nothing is retained. *)
Lemma tag_loop_none spec tags : forall acc,
  Forall (skipped spec) tags ->
  foldM (tag_body spec) acc tags = ret acc.
Proof.
  induction tags as [|tag tags IH]; intros acc F; [reflexivity|].
  inversion F as [|? ? S F']; subst. simpl.
  destruct (tag_body_cases spec acc tag) as [[E _]|[[E R]|[E [L [sp [Es En]]]]]];
    rewrite E.
  - rewrite bind_ret_l. now apply IH.
  - exfalso. destruct R as [_ [L R]].
    destruct S as [S|[sp [s [sem [Es [En [Ev Em]]]]]]]; [congruence|].
    unfold in_range in R. rewrite Es in R.
    destruct R as [s' [sem' [En' [Ev' Em']]]]. congruence.
  - exfalso. destruct S as [S|[sp' [s [sem [Es' [En' _]]]]]]; congruence.
Qed.

(** With a malformed specification the loop raises at the first loose
    semantic version, and retains nothing otherwise. *)
Lemma tag_loop_malformed spec sp tags :
  if_str spec = Some sp -> Spec_new sp = None ->
  forall acc,
  foldM (tag_body spec) acc tags
  = if existsb loose tags then raise ValueError else ret acc.
Proof.
  intros Es En. induction tags as [|tag tags IH]; intros acc; [reflexivity|].
  simpl.
  destruct (tag_body_cases spec acc tag)
    as [[E S]|[[E R]|[E [L _]]]]; rewrite E.
  - destruct S as [S|[sp' [s [sem [Es' [En' _]]]]]]; [|congruence].
    rewrite S, bind_ret_l. apply IH.
  - exfalso. destruct R as [_ [_ R]]. unfold in_range in R. rewrite Es in R.
    destruct R as [s [sem [En' _]]]. congruence.
  - rewrite L. reflexivity.
Qed.

Lemma has_nul_fetch_command repo : has_nul (fetch_command repo) = has_nul repo.
Proof.
  unfold has_nul, fetch_command. simpl. rewrite StrFacts.mem_app. simpl.
  apply orb_false_r.
Qed.

Lemma has_nul_tags_command repo : has_nul (tags_command repo) = has_nul repo.
Proof.
  unfold has_nul, tags_command. simpl. rewrite StrFacts.mem_app. simpl.
  apply orb_false_r.
Qed.

(** The repository step, once its commands have succeeded. *)
Lemma repo_body_step spec fetch repo output :
  is_repo_line repo -> commands_succeed os fetch repo output ->
  repo_body repr os spec fetch repo
  = match outcome (foldM (tag_body spec) [] (tags_of output)) with
    | Abort why => (repo_prefix fetch repo, Abort why)
    | Ok versions =>
        match PySort.sort StrictVersion.__lt__ StrictVersion.parse versions with
        | None =>
            ((repo_prefix fetch repo ++ [EPrint (diagnostic repr repo versions)])%list,
             Abort (SystemExit (-1)))
        | Some sorted =>
            ((repo_prefix fetch repo
              ++ [EPrint (result_line repo (version_field (last_or_none sorted)))])%list,
             Ok tt)
        end
    end.
Proof.
  intros Hrepo [Hnul [Hfetch Htags]].
  assert (E : repo_body repr os spec fetch repo = process_repo repr os spec fetch repo).
  { destruct repo as [|c r]; [destruct Hrepo|]. simpl in *.
    destruct (Ascii.eqb_spec c "#"); [congruence|reflexivity]. }
  rewrite E. clear E Hrepo.
  unfold process_repo, repo_prefix, check_output_decode, check_call, tags_of.
  rewrite has_nul_fetch_command, has_nul_tags_command, Hnul, Htags.
  pose proof (tag_loop_trace spec (PyStr.split (ascii_of_nat 10) output) []) as Ht.
  destruct fetch; [rewrite (Hfetch eq_refl)|]; cbn [bind emit ret app fst];
    destruct (foldM (tag_body spec) [] (PyStr.split (ascii_of_nat 10) output))
      as [tr [versions|why]]; simpl in Ht; subst tr; simpl outcome; cbv iota;
    try reflexivity;
    cbn [bind ret app]; unfold sort_versions, diagnostic, result_line;
    destruct (PySort.sort StrictVersion.__lt__ StrictVersion.parse versions);
    reflexivity.
Qed.

End ScriptFacts.

Section StepFacts.
Context {semver : SemanticVersion}.
Variable repr : string -> string.
Variable os : World.

Lemma stdout_repo_prefix fetch repo : stdout (repo_prefix fetch repo) = [].
Proof. destruct fetch; reflexivity. Qed.

Lemma commands_repo_prefix fetch repo :
  is_repo_line repo ->
  commands (repo_prefix fetch repo) = line_commands fetch repo.
Proof.
  destruct repo as [|c r]; [intros []|]. simpl. intros Hc.
  destruct (Ascii.eqb_spec c "#"); [congruence|]. destruct fetch; reflexivity.
Qed.

(** Retained tags come from the lines of the listing: none holds a
    newline. *)
Lemma retained_single_line spec output versions :
  outcome (foldM (tag_body spec) [] (tags_of output)) = Ok versions ->
  forall v, In v versions -> single_line v = true.
Proof.
  intros Hv v Hin.
  destruct (tag_loop_sound spec _ _ _ Hv _ Hin) as [[]|[tag [Ht [-> _]]]].
  unfold single_line. apply negb_true_iff, StrFacts.lstrip_mem.
  pose proof (StrFacts.split_no_sep (ascii_of_nat 10) output) as F.
  rewrite Forall_forall in F. now apply F.
Qed.

(** What is printed after a sort that succeeded. *)
Lemma field_cases versions sorted :
  PySort.sort StrictVersion.__lt__ StrictVersion.parse versions = Some sorted ->
  (versions = [] /\ version_field (last_or_none sorted) = "no match")
  \/ exists latest kl,
       version_field (last_or_none sorted) = latest
       /\ In latest versions
       /\ StrictVersion.parse latest = Some kl
       /\ forall t, In t versions ->
            exists kt, StrictVersion.parse t = Some kt /\ StrictOrder.le kt kl.
Proof.
  intros Hs. pose proof (SortFacts.sort_perm _ _ _ _ Hs) as P.
  destruct versions as [|v0 vs0].
  - left. apply Permutation_nil in P. subst. now split.
  - right. destruct sorted as [|s0 ss];
      [apply Permutation_sym, Permutation_nil in P; discriminate|].
    set (l := last (s0 :: ss) EmptyString).
    assert (Hl : In l (s0 :: ss)).
    { destruct (exists_last (l := s0 :: ss)) as [pre [a Ea]]; [discriminate|].
      unfold l. rewrite Ea, last_last. apply in_or_app. right. now left. }
    assert (Hmax := SortFacts.sort_last_max StrictVersion.__lt__
                      StrictOrderFacts.lt_asym StrictOrderFacts.le_trans
                      StrictVersion.parse _ _ EmptyString Hs).
    fold l in Hmax.
    destruct (Hmax v0 (or_introl eq_refl)) as [k0 [kl [_ [Ekl _]]]].
    exists l, kl. repeat split.
    + unfold last_or_none, version_field, if_str. fold l.
      destruct l; [discriminate Ekl|reflexivity].
    + eapply Permutation_in; [apply Permutation_sym; exact P|exact Hl].
    + exact Ekl.
    + intros t Ht. destruct (Hmax t Ht) as [kt [kl' [Ekt [Ekl' Hle]]]].
      exists kt. split; [exact Ekt|]. unfold StrictOrder.le. congruence.
Qed.

(** A repository step that ran to the end had its commands succeed, its
    tag loop finish and its sort succeed. *)
Lemma process_repo_ok spec fetch repo :
  is_repo_line repo ->
  outcome (repo_body repr os spec fetch repo) = Ok tt ->
  exists output versions sorted,
    commands_succeed os fetch repo output
    /\ outcome (foldM (tag_body spec) [] (tags_of output)) = Ok versions
    /\ PySort.sort StrictVersion.__lt__ StrictVersion.parse versions = Some sorted
    /\ repo_body repr os spec fetch repo
       = ((repo_prefix fetch repo
           ++ [EPrint (result_line repo (version_field (last_or_none sorted)))])%list,
          Ok tt).
Proof.
  intros Hrepo Hok.
  assert (Hc : exists output, commands_succeed os fetch repo output).
  { destruct repo as [|c r]; [destruct Hrepo|]. simpl in Hrepo.
    unfold repo_body in Hok. destruct (Ascii.eqb_spec c "#"); [congruence|].
    unfold process_repo, check_call, check_output_decode, commands_succeed in *.
    set (repo := String c r) in *.
    rewrite has_nul_fetch_command, has_nul_tags_command in Hok.
    destruct (has_nul repo) eqn:Hnul;
      [exfalso; destruct fetch; discriminate Hok|].
    destruct (shell os (tags_command repo)) as [[|] [output|]] eqn:Et.
    - exists output. split; [reflexivity|]. split; [|reflexivity]. intros ->.
      destruct (fst (shell os (fetch_command repo))); [reflexivity|].
      discriminate Hok.
    - exfalso. destruct fetch; [destruct (fst (shell os (fetch_command repo)))|];
        discriminate Hok.
    - exfalso. destruct fetch; [destruct (fst (shell os (fetch_command repo)))|];
        discriminate Hok.
    - exfalso. destruct fetch; [destruct (fst (shell os (fetch_command repo)))|];
        discriminate Hok. }
  destruct Hc as [output Hc]. exists output.
  rewrite (repo_body_step repr os spec fetch repo output Hrepo Hc) in *.
  destruct (outcome (foldM (tag_body spec) [] (tags_of output)))
    as [versions|why]; [|discriminate Hok].
  exists versions.
  destruct (PySort.sort StrictVersion.__lt__ StrictVersion.parse versions)
    as [sorted|]; [|discriminate Hok].
  exists sorted. repeat split; assumption || reflexivity || apply Hc.
Qed.

(** The contribution of one config line to a run that went through. *)
Lemma repo_body_ok_shape spec fetch line :
  outcome (repo_body repr os spec fetch line) = Ok tt ->
  line_shape os spec line (stdout (trace (repo_body repr os spec fetch line)))
  /\ commands (trace (repo_body repr os spec fetch line)) = line_commands fetch line.
Proof.
  intros Hok. destruct line as [|c r] eqn:El; [now split|].
  destruct (Ascii.eqb c "#") eqn:Ec.
  - unfold repo_body, line_shape, line_commands. rewrite Ec. now split.
  - assert (Hrepo : is_repo_line (String c r)).
    { simpl. intros ->. discriminate Ec. }
    destruct (process_repo_ok spec fetch _ Hrepo Hok)
      as [output [versions [sorted [Hc [Hv [Hs E]]]]]].
    rewrite E. unfold trace. cbn [fst].
    rewrite stdout_app, commands_app, stdout_repo_prefix.
    rewrite (commands_repo_prefix fetch _ Hrepo). split.
    + unfold line_shape. rewrite Ec.
      exists (version_field (last_or_none sorted)). split; [reflexivity|].
      destruct (field_cases _ _ Hs) as [[_ F]|[latest [kl [F [Hin [Ek _]]]]]];
        [now left|right].
      rewrite F.
      destruct (tag_loop_sound spec _ _ _ Hv _ Hin) as [[]|[tag [Ht Hr]]].
      exists output, tag. split; [apply Hc|]. split; [exact Ht|].
      split; [exact Hr|congruence].
    + simpl. now rewrite app_nil_r.
Qed.


(** [print_versions] is the loop over the lines of the config file. *)
Lemma print_versions_loop spec fetch text :
  file_bytes os (expanduser os FILE) = Some (Some text) ->
  print_versions repr os spec fetch
  = (EOpen (expanduser os FILE)
       :: trace (for_ (PyStr.split (ascii_of_nat 10) text)
                   (repo_body repr os (normalize_spec spec) fetch)),
     outcome (for_ (PyStr.split (ascii_of_nat 10) text)
                (repo_body repr os (normalize_spec spec) fetch))).
Proof.
  intros Hf. unfold print_versions, open_read_decode. rewrite Hf.
  cbn [bind emit ret app].
  now destruct (for_ (PyStr.split (ascii_of_nat 10) text)
                  (repo_body repr os (normalize_spec spec) fetch)).
Qed.

(** A retained tag that is not a strict version makes the step print the
    diagnostic and exit, and with it the loop over the config lines. *)
Lemma strict_failure_step spec fetch repo output versions bad :
  is_repo_line repo ->
  commands_succeed os fetch repo output ->
  outcome (foldM (tag_body spec) [] (tags_of output)) = Ok versions ->
  In bad versions ->
  StrictVersion.parse bad = None ->
  repo_body repr os spec fetch repo
  = ((repo_prefix fetch repo ++ [EPrint (diagnostic repr repo versions)])%list,
     Abort (SystemExit (-1)))
  /\ forall pre post t0,
       for_ pre (repo_body repr os spec fetch) = (t0, Ok tt) ->
       for_ (pre ++ repo :: post) (repo_body repr os spec fetch)
       = ((t0 ++ repo_prefix fetch repo
              ++ [EPrint (diagnostic repr repo versions)])%list,
          Abort (SystemExit (-1))).
Proof.
  intros Hrepo Hc Hv Hin Hbad.
  assert (E : repo_body repr os spec fetch repo
              = ((repo_prefix fetch repo
                  ++ [EPrint (diagnostic repr repo versions)])%list,
                 Abort (SystemExit (-1)))).
  { rewrite (repo_body_step repr os spec fetch repo output Hrepo Hc), Hv.
    destruct (PySort.sort StrictVersion.__lt__ StrictVersion.parse versions)
      as [sorted|] eqn:Hs; [|reflexivity].
    exfalso.
    assert (N : PySort.sort StrictVersion.__lt__ StrictVersion.parse versions = None)
      by (apply SortFacts.sort_none; now exists bad).
    congruence. }
  split; [exact E|].
  intros pre post t0 Hpre. exact (for_abort pre repo post _ _ _ _ Hpre E).
Qed.

(** When every tag of a repository is skipped, its line says so. *)
Lemma all_skipped_no_match spec fetch repo output :
  is_repo_line repo ->
  commands_succeed os fetch repo output ->
  Forall (skipped spec) (tags_of output) ->
  repo_body repr os spec fetch repo
  = ((repo_prefix fetch repo ++ [EPrint (result_line repo "no match")])%list, Ok tt).
Proof.
  intros Hrepo Hc Hs.
  rewrite (repo_body_step repr os spec fetch repo output Hrepo Hc).
  now rewrite (tag_loop_none spec _ [] Hs).
Qed.

End StepFacts.

(* ================================================================== *)
(** ** The claims *)

Section Claims.
Context {semver : SemanticVersion}.
Variable repr : string -> string.
Variable os : World.

(** C1: for a repository whose retained tag list is non-empty and whose
    strict sort succeeds, the line printed for it carries a retained tag
    that is a maximum of the retained tags under the [StrictVersion]
    order, and whose [major.minor.patch], read as three decimal numbers,
    is numerically not below that of any retained tag. *)
Theorem C1_latest_is_numeric_maximum spec fetch repo output versions :
  is_repo_line repo ->
  commands_succeed os fetch repo output ->
  outcome (foldM (tag_body spec) [] (tags_of output)) = Ok versions ->
  versions <> [] ->
  Forall (fun v => StrictVersion.parse v <> None) versions ->
  exists latest kl,
    repo_body repr os spec fetch repo
    = ((repo_prefix fetch repo ++ [EPrint (basename repo ++ ": " ++ latest)])%list,
       Ok tt)
    /\ In latest versions
    /\ StrictVersion.parse latest = Some kl
    /\ (forall t, In t versions ->
          exists kt, StrictVersion.parse t = Some kt
            /\ StrictOrder.le kt kl /\ StrictOrder.triple_le kt kl)
    /\ (forall t, In t versions ->
          exists nt nl, Numeric.triple t = Some nt
            /\ Numeric.triple latest = Some nl
            /\ Numeric.le nt nl).
Proof.
  intros Hrepo Hc Hv Hne Hall.
  rewrite (repo_body_step repr os spec fetch repo output Hrepo Hc), Hv.
  destruct (PySort.sort StrictVersion.__lt__ StrictVersion.parse versions)
    as [sorted|] eqn:Hs.
  - destruct (field_cases _ _ Hs) as [[E _]|[latest [kl [F [Hin [Ek Hmax]]]]]];
      [contradiction|].
    exists latest, kl. rewrite F. split; [reflexivity|].
    split; [exact Hin|]. split; [exact Ek|]. split.
    + intros t Ht. destruct (Hmax t Ht) as [kt [Ekt Hle]].
      exists kt. split; [exact Ekt|]. split; [exact Hle|].
      now apply StrictOrderFacts.le_triple_le.
    + intros t Ht. destruct (Hmax t Ht) as [kt [Ekt Hle]].
      exists (StrictVersion.version kt), (StrictVersion.version kl).
      split; [|split].
      * apply NumericFacts.parse_reads; [exact Ekt|].
        exact (retained_single_line spec output versions Hv t Ht).
      * apply NumericFacts.parse_reads; [exact Ek|].
        exact (retained_single_line spec output versions Hv latest Hin).
      * apply NumericFacts.triple_le_le.
        now apply StrictOrderFacts.le_triple_le.
  - exfalso. apply SortFacts.sort_none in Hs. destruct Hs as [x [Hx Ex]].
    rewrite Forall_forall in Hall. exact (Hall x Hx Ex).
Qed.

(** C2: with a specification that is supplied (non-empty once stripped)
    and well-formed, a repository step that prints its line prints either
    [no match], when nothing was retained, or a retained version that
    satisfies the range predicate of the specification. *)
Theorem C2_latest_in_range spec sp s fetch repo :
  if_str spec = Some sp -> Spec_new sp = Some s ->
  is_repo_line repo ->
  outcome (repo_body repr os spec fetch repo) = Ok tt ->
  exists output versions field,
    commands_succeed os fetch repo output
    /\ outcome (foldM (tag_body spec) [] (tags_of output)) = Ok versions
    /\ stdout (trace (repo_body repr os spec fetch repo))
       = [basename repo ++ ": " ++ field]
    /\ ((versions = [] /\ field = "no match")
        \/ (In field versions
            /\ exists sem, Version_partial field = Some sem
                           /\ Spec_match s sem = true)).
Proof.
  intros Es En Hrepo Hok.
  destruct (process_repo_ok repr os spec fetch repo Hrepo Hok)
    as [output [versions [sorted [Hc [Hv [Hs E]]]]]].
  exists output, versions, (version_field (last_or_none sorted)).
  split; [exact Hc|]. split; [exact Hv|]. split.
  - rewrite E. unfold trace. cbn [fst].
    now rewrite stdout_app, stdout_repo_prefix.
  - destruct (field_cases _ _ Hs) as [[Ev F]|[latest [kl [F [Hin _]]]]];
      [now left|right].
    rewrite F. split; [exact Hin|].
    destruct (tag_loop_sound spec _ _ _ Hv _ Hin) as [[]|[tag [_ [_ [_ Hr]]]]].
    unfold in_range in Hr. rewrite Es in Hr.
    destruct Hr as [s' [sem [En' [Ev Em]]]].
    exists sem. split; [exact Ev|]. congruence.
Qed.

(** C3: when the tag loop of a repository retains nothing, the line
    printed for it is [<basename>: no match]. *)
Theorem C3_no_match_when_nothing_retained spec fetch repo output :
  is_repo_line repo ->
  commands_succeed os fetch repo output ->
  outcome (foldM (tag_body spec) [] (tags_of output)) = Ok [] ->
  repo_body repr os spec fetch repo
  = ((repo_prefix fetch repo ++ [EPrint (basename repo ++ ": no match")])%list,
     Ok tt)
  /\ stdout (trace (repo_body repr os spec fetch repo))
     = [basename repo ++ ": no match"].
Proof.
  intros Hrepo Hc Hv.
  rewrite (repo_body_step repr os spec fetch repo output Hrepo Hc), Hv.
  split; [reflexivity|]. unfold trace. cbn [fst PySort.sort PySort.decorate].
  now rewrite stdout_app, stdout_repo_prefix.
Qed.



(** C6, as amended: with a malformed specification a repository step
    raises [ValueError] exactly when one of its tags is non-empty once
    stripped and parses loosely; then no line is printed for it and no
    later config line is processed.  A repository without such a tag is
    reported as [no match] and the run goes on. *)
Theorem C6_malformed_spec_aborts_at_first_loose_tag spec sp fetch repo output :
  if_str spec = Some sp -> Spec_new sp = None ->
  is_repo_line repo ->
  commands_succeed os fetch repo output ->
  repo_body repr os spec fetch repo
  = (if existsb loose (tags_of output)
     then (repo_prefix fetch repo, Abort (Uncaught ValueError))
     else ((repo_prefix fetch repo ++ [EPrint (basename repo ++ ": no match")])%list,
           Ok tt))
  /\ (existsb loose (tags_of output) = true ->
      forall pre post t0,
        for_ pre (repo_body repr os spec fetch) = (t0, Ok tt) ->
        for_ (pre ++ repo :: post) (repo_body repr os spec fetch)
        = ((t0 ++ repo_prefix fetch repo)%list, Abort (Uncaught ValueError))).
Proof.
  intros Es En Hrepo Hc.
  assert (E : repo_body repr os spec fetch repo
              = (if existsb loose (tags_of output)
                 then (repo_prefix fetch repo, Abort (Uncaught ValueError))
                 else ((repo_prefix fetch repo
                        ++ [EPrint (basename repo ++ ": no match")])%list, Ok tt))).
  { rewrite (repo_body_step repr os spec fetch repo output Hrepo Hc).
    rewrite (tag_loop_malformed spec sp _ Es En).
    destruct (existsb loose (tags_of output)); reflexivity. }
  split; [exact E|]. intros Hl pre post t0 Hpre. rewrite Hl in E.
  exact (for_abort pre repo post _ _ _ _ Hpre E).
Qed.

(** C7, as amended: every leading [v] is stripped.  A tag made of [n]
    letters [v] followed by [t], where [t] does not start with [v], is
    stripped to [t] (for [n = 1] only that one character goes) and goes
    through the loop exactly as [t] does. *)
Theorem C7_every_leading_v_is_stripped (n : nat) (t : string) :
  starts_with_v t = false ->
  PyStr.lstrip "v" (vs n ++ t) = t
  /\ forall spec versions,
       tag_body spec versions (vs n ++ t) = tag_body spec versions t.
Proof.
  intros Ht. split.
  - rewrite StrFacts.lstrip_vs. now apply StrFacts.lstrip_v_fixed.
  - intros spec versions. unfold tag_body. now rewrite StrFacts.lstrip_vs.
Qed.

(** C8: the tags ['v' + t] and [t] get the same treatment: the loop body
    takes the same branch and retains the same string for both, so a tag
    list gives the same retained list when one tag gets a [v] in front;
    stripping twice is stripping once. *)
Theorem C8_v_prefix_is_irrelevant spec (t : string) :
  (forall versions,
     tag_body spec versions (String "v" t) = tag_body spec versions t)
  /\ (forall pre post,
        foldM (tag_body spec) [] (pre ++ String "v" t :: post)
        = foldM (tag_body spec) [] (pre ++ t :: post))
  /\ PyStr.lstrip "v" (PyStr.lstrip "v" t) = PyStr.lstrip "v" t.
Proof.
  assert (E : forall versions,
             tag_body spec versions (String "v" t) = tag_body spec versions t)
    by reflexivity.
  split; [exact E|]. split; [|apply StrFacts.lstrip_v_idem].
  intros pre post. generalize (@nil string) as acc.
  induction pre as [|x pre IH]; intros acc; simpl.
  - now rewrite E.
  - destruct (tag_body spec acc x) as [tr [acc'|why]]; [|reflexivity].
    cbn [bind]. now rewrite IH.
Qed.

(** C9: when a tag of a repository passes the loose parse (and the
    specification, if one is given) but is not a strict version, the step
    prints the diagnostic and exits with status [-1], whatever the other
    tags are, and no later config line is processed. *)
Theorem C9_loose_but_not_strict_aborts spec fetch repo output tag :
  is_repo_line repo ->
  commands_succeed os fetch repo output ->
  In tag (tags_of output) ->
  loose tag = true ->
  in_range spec (PyStr.lstrip "v" tag) ->
  StrictVersion.parse (PyStr.lstrip "v" tag) = None ->
  exists versions,
    outcome (foldM (tag_body spec) [] (tags_of output)) = Ok versions
    /\ In (PyStr.lstrip "v" tag) versions
    /\ repo_body repr os spec fetch repo
       = ((repo_prefix fetch repo ++ [EPrint (diagnostic repr repo versions)])%list,
          Abort (SystemExit (-1)))
    /\ forall pre post t0,
         for_ pre (repo_body repr os spec fetch) = (t0, Ok tt) ->
         for_ (pre ++ repo :: post) (repo_body repr os spec fetch)
         = ((t0 ++ repo_prefix fetch repo
                ++ [EPrint (diagnostic repr repo versions)])%list,
            Abort (SystemExit (-1))).
Proof.
  intros Hrepo Hc Hin Hl Hr Hbad.
  assert (Hok : spec_ok spec).
  { unfold spec_ok, in_range in *. destruct (if_str spec) as [sp|]; [|exact I].
    destruct Hr as [s0 [_ [Hs _]]]. now exists s0. }
  destruct (tag_loop_total spec (tags_of output) Hok []) as [versions Hv].
  exists versions. split; [exact Hv|].
  assert (Hin' : In (PyStr.lstrip "v" tag) versions).
  { destruct (tag_loop_complete spec _ _ _ Hv) as [_ Hcomp].
    apply (Hcomp tag); [exact Hin|]. now repeat split. }
  split; [exact Hin'|].
  exact (strict_failure_step repr os spec fetch repo output versions _
           Hrepo Hc Hv Hin' Hbad).
Qed.

(** C10, as amended: without [-h] and [--help] on the command line, an
    empty string among the arguments after the program name makes [main]
    raise [IndexError] before the config file is opened and before
    anything is printed. *)
Theorem C10_empty_argument_raises_IndexError argv :
  PyStr.contains "-h" argv = false ->
  PyStr.contains "--help" argv = false ->
  In EmptyString (tl argv) ->
  main repr os argv = ([], Abort (Uncaught IndexError)).
Proof.
  intros Hh Hhelp Hin. unfold main. rewrite Hh, Hhelp. cbn [orb].
  assert (E : non_flags (tl argv) = ([], Abort (Uncaught IndexError))).
  { induction (tl argv) as [|a l IH]; [destruct Hin|].
    simpl. destruct a as [|c a']; [reflexivity|].
    destruct Hin as [Ha|Hin]; [discriminate Ha|].
    now rewrite (IH Hin). }
  now rewrite E.
Qed.

End Claims.

(* ================================================================== *)
(** ** Further properties of the script *)

Section LoopFacts.
Context {A : Type}.

(** What holds of the events of every body holds of the events of the
    loop. *)
Lemma for_trace_forall (P : event -> Prop) (body : A -> M unit) l :
  (forall x, Forall P (trace (body x))) -> Forall P (trace (for_ l body)).
Proof.
  intros H. induction l as [|x l IH]; [constructor|].
  rewrite for_cons. specialize (H x).
  destruct (body x) as [t [[]|w]]; [|exact H].
  unfold trace in *. cbn [bind fst] in *.
  destruct (for_ l body) as [tl r]. cbn [fst] in *.
  apply Forall_app. now split.
Qed.

End LoopFacts.

Lemma prefix_of_app {A : Type} (a p l : list A) :
  prefix_of p l -> prefix_of (a ++ p) (a ++ l).
Proof. intros [rest ->]. exists rest. now rewrite app_assoc. Qed.

Lemma prefix_of_weaken {A : Type} (p l l' : list A) :
  prefix_of p l -> prefix_of p (l ++ l').
Proof. intros [rest ->]. exists (rest ++ l')%list. now rewrite app_assoc. Qed.

Section FailureFacts.
Context {semver : SemanticVersion}.
Variable repr : string -> string.
Variable os : World.

Lemma repo_line_body spec fetch repo :
  is_repo_line repo ->
  repo_body repr os spec fetch repo = process_repo repr os spec fetch repo.
Proof.
  destruct repo as [|c r]; [intros []|]. simpl. intros Hc.
  destruct (Ascii.eqb_spec c "#"); [congruence|reflexivity].
Qed.

(** A line with a NUL character stops at the first command. *)
Lemma nul_step spec fetch repo :
  is_repo_line repo ->
  has_nul repo = true ->
  repo_body repr os spec fetch repo
  = ([if fetch then ECheckCall (fetch_command repo)
      else ECheckOutput (tags_command repo)],
     Abort (Uncaught ValueError)).
Proof.
  intros Hrepo Hn. rewrite (repo_line_body spec fetch repo Hrepo).
  unfold process_repo, check_call, check_output_decode.
  rewrite has_nul_fetch_command, has_nul_tags_command, Hn.
  now destruct fetch.
Qed.

Lemma fetch_failure_step spec repo :
  is_repo_line repo ->
  has_nul repo = false ->
  fst (shell os (fetch_command repo)) = false ->
  repo_body repr os spec true repo
  = ([ECheckCall (fetch_command repo)], Abort (Uncaught CalledProcessError)).
Proof.
  intros Hrepo Hn Hf. rewrite (repo_line_body spec true repo Hrepo).
  unfold process_repo, check_call.
  now rewrite has_nul_fetch_command, Hn, Hf.
Qed.

Lemma listing_failure_step spec fetch repo :
  is_repo_line repo ->
  has_nul repo = false ->
  (fetch = true -> fst (shell os (fetch_command repo)) = true) ->
  fst (shell os (tags_command repo)) = false ->
  repo_body repr os spec fetch repo
  = (repo_prefix fetch repo, Abort (Uncaught CalledProcessError)).
Proof.
  intros Hrepo Hn Hf Ht. rewrite (repo_line_body spec fetch repo Hrepo).
  unfold process_repo, check_call, check_output_decode, repo_prefix.
  rewrite has_nul_fetch_command, has_nul_tags_command, Hn.
  destruct (shell os (tags_command repo)) as [ok out]. simpl in Ht. subst ok.
  destruct fetch; [rewrite (Hf eq_refl)|]; reflexivity.
Qed.

Lemma listing_undecodable_step spec fetch repo :
  is_repo_line repo ->
  has_nul repo = false ->
  (fetch = true -> fst (shell os (fetch_command repo)) = true) ->
  shell os (tags_command repo) = (true, None) ->
  repo_body repr os spec fetch repo
  = (repo_prefix fetch repo, Abort (Uncaught UnicodeDecodeError)).
Proof.
  intros Hrepo Hn Hf Ht. rewrite (repo_line_body spec fetch repo Hrepo).
  unfold process_repo, check_call, check_output_decode, repo_prefix.
  rewrite has_nul_fetch_command, has_nul_tags_command, Hn.
  rewrite Ht. destruct fetch; [rewrite (Hf eq_refl)|]; reflexivity.
Qed.

(** Every way through the step for a repository line. *)
Lemma repo_body_cases spec fetch repo :
  is_repo_line repo ->
  (exists e,
     repo_body repr os spec fetch repo
     = ([if fetch then ECheckCall (fetch_command repo)
         else ECheckOutput (tags_command repo)],
        Abort (Uncaught e)))
  \/ (exists e,
        repo_body repr os spec fetch repo
        = (repo_prefix fetch repo, Abort (Uncaught e)))
  \/ (exists output, commands_succeed os fetch repo output).
Proof.
  intros Hrepo.
  destruct (has_nul repo) eqn:Hn;
    [left; exists ValueError; now apply nul_step|].
  destruct fetch eqn:Ef.
  - destruct (fst (shell os (fetch_command repo))) eqn:Hf.
    + destruct (shell os (tags_command repo)) as [[|] [out|]] eqn:Ht.
      * right; right. exists out. now repeat split.
      * right; left. exists UnicodeDecodeError.
        apply listing_undecodable_step; auto.
      * right; left. exists CalledProcessError.
        apply listing_failure_step; auto. now rewrite Ht.
      * right; left. exists CalledProcessError.
        apply listing_failure_step; auto. now rewrite Ht.
    + left. exists CalledProcessError. now apply fetch_failure_step.
  - destruct (shell os (tags_command repo)) as [[|] [out|]] eqn:Ht.
    + right; right. exists out. split; [assumption|]. split; [discriminate|assumption].
    + right; left. exists UnicodeDecodeError.
      apply listing_undecodable_step; auto. discriminate.
    + right; left. exists CalledProcessError.
      apply listing_failure_step; auto; [discriminate|now rewrite Ht].
    + right; left. exists CalledProcessError.
      apply listing_failure_step; auto; [discriminate|now rewrite Ht].
Qed.

Lemma is_repo_line_dec line :
  line = EmptyString
  \/ (exists r, line = String "#" r)
  \/ is_repo_line line.
Proof.
  destruct line as [|c r]; [now left|right].
  destruct (Ascii.eqb_spec c "#") as [->|Hc]; [left; now exists r|now right].
Qed.

(** With fetching disabled no step calls [check_call]. *)
Lemma repo_body_nofetch_trace spec line :
  Forall (fun e => is_check_call e = false)
    (trace (repo_body repr os spec false line)).
Proof.
  destruct (is_repo_line_dec line) as [->|[[r ->]|Hrepo]].
  - constructor.
  - now repeat constructor.
  - destruct (repo_body_cases spec false line Hrepo)
      as [[e E]|[[e E]|[output Hc]]].
    + rewrite E. now repeat constructor.
    + rewrite E. now repeat constructor.
    + rewrite (repo_body_step repr os spec false line output Hrepo Hc).
      destruct (outcome (foldM (tag_body spec) [] (tags_of output)))
        as [versions|why]; [|now repeat constructor].
      destruct (PySort.sort StrictVersion.__lt__ StrictVersion.parse versions);
        now repeat constructor.
Qed.

(** The commands of a step are the first commands of its line. *)
Lemma repo_body_commands_prefix spec fetch line :
  prefix_of (commands (trace (repo_body repr os spec fetch line)))
    (line_commands fetch line).
Proof.
  destruct (is_repo_line_dec line) as [->|[[r ->]|Hrepo]].
  - now exists [].
  - now exists [].
  - destruct (repo_body_cases spec fetch line Hrepo)
      as [[e E]|[[e E]|[output Hc]]].
    + rewrite E. rewrite <- (commands_repo_prefix fetch line Hrepo).
      destruct fetch; [now exists [tags_command line]|now exists []].
    + rewrite E. rewrite <- (commands_repo_prefix fetch line Hrepo).
      exists []. now rewrite app_nil_r.
    + rewrite (repo_body_step repr os spec fetch line output Hrepo Hc).
      rewrite <- (commands_repo_prefix fetch line Hrepo).
      destruct (outcome (foldM (tag_body spec) [] (tags_of output)))
        as [versions|why].
      * destruct (PySort.sort StrictVersion.__lt__ StrictVersion.parse versions);
          unfold trace; cbn [fst]; rewrite commands_app; simpl;
          exists []; now rewrite !app_nil_r.
      * exists []. now rewrite app_nil_r.
Qed.

Lemma for_commands_prefix spec fetch lines :
  prefix_of (commands (trace (for_ lines (repo_body repr os spec fetch))))
    (flat_map (line_commands fetch) lines).
Proof.
  induction lines as [|line lines IH]; [now exists []|].
  rewrite for_cons. simpl flat_map.
  pose proof (repo_body_commands_prefix spec fetch line) as Hp.
  destruct (repo_body repr os spec fetch line) as [t [[]|w]] eqn:Eb.
  - assert (Hok : outcome (repo_body repr os spec fetch line) = Ok tt)
      by now rewrite Eb.
    destruct (repo_body_ok_shape repr os spec fetch line Hok) as [_ Hc].
    rewrite Eb in Hc. unfold trace in *. cbn [fst bind] in *.
    destruct (for_ lines (repo_body repr os spec fetch)) as [tl r].
    cbn [fst] in *. rewrite commands_app, Hc. now apply prefix_of_app.
  - unfold trace in *. cbn [fst bind] in *. now apply prefix_of_weaken.
Qed.

(** [print_versions] when the config file cannot be read or decoded. *)
Lemma print_versions_no_config spec fetch :
  (file_bytes os (expanduser os FILE) = None
   /\ print_versions repr os spec fetch
      = ([EOpen (expanduser os FILE)], Abort (Uncaught OSError)))
  \/ (file_bytes os (expanduser os FILE) = Some None
      /\ print_versions repr os spec fetch
         = ([EOpen (expanduser os FILE)], Abort (Uncaught UnicodeDecodeError)))
  \/ exists text, file_bytes os (expanduser os FILE) = Some (Some text).
Proof.
  unfold print_versions, open_read_decode.
  destruct (file_bytes os (expanduser os FILE)) as [[text|]|].
  - right; right. now exists text.
  - right; left. now split.
  - left. now split.
Qed.

(** X1: with fetching disabled, no run ever calls [git fetch], however the
    run ends. *)
Theorem nofetch_never_fetches spec :
  Forall (fun e => is_check_call e = false)
    (trace (print_versions repr os spec false)).
Proof.
  destruct (print_versions_no_config spec false)
    as [[_ E]|[[_ E]|[text Hf]]].
  - rewrite E. now repeat constructor.
  - rewrite E. now repeat constructor.
  - rewrite (print_versions_loop repr os spec false text Hf).
    unfold trace at 1. cbn [fst]. constructor; [reflexivity|].
    apply for_trace_forall. intros line. apply repo_body_nofetch_trace.
Qed.

(** X2: a [git fetch] that was started and fails is fatal:
    [CalledProcessError] escapes right after the fetch, the tags of the
    repository are not listed, nothing is printed for it and no later
    config line is processed. *)
Theorem fetch_failure_is_fatal spec repo :
  is_repo_line repo ->
  has_nul repo = false ->
  fst (shell os (fetch_command repo)) = false ->
  forall pre post t0,
    for_ pre (repo_body repr os spec true) = (t0, Ok tt) ->
    for_ (pre ++ repo :: post) (repo_body repr os spec true)
    = ((t0 ++ [ECheckCall (fetch_command repo)])%list,
       Abort (Uncaught CalledProcessError)).
Proof.
  intros Hrepo Hn Hf pre post t0 Hpre.
  exact (for_abort pre repo post _ _ _ _ Hpre
           (fetch_failure_step spec repo Hrepo Hn Hf)).
Qed.

(** X3: a [git tag -l] that was started and fails is fatal:
    [CalledProcessError] escapes right after the listing, nothing is
    printed for the repository and no later config line is processed. *)
Theorem listing_failure_is_fatal spec fetch repo :
  is_repo_line repo ->
  has_nul repo = false ->
  (fetch = true -> fst (shell os (fetch_command repo)) = true) ->
  fst (shell os (tags_command repo)) = false ->
  forall pre post t0,
    for_ pre (repo_body repr os spec fetch) = (t0, Ok tt) ->
    for_ (pre ++ repo :: post) (repo_body repr os spec fetch)
    = ((t0 ++ repo_prefix fetch repo)%list, Abort (Uncaught CalledProcessError))
    /\ stdout (t0 ++ repo_prefix fetch repo) = stdout t0.
Proof.
  intros Hrepo Hn Hf Ht pre post t0 Hpre. split.
  - exact (for_abort pre repo post _ _ _ _ Hpre
             (listing_failure_step spec fetch repo Hrepo Hn Hf Ht)).
  - now rewrite stdout_app, stdout_repo_prefix, app_nil_r.
Qed.

(** X13: a repository line that holds a NUL character is fatal at its
    first command, which is never started: [ValueError] escapes from the
    fetch when fetching is enabled, from the tag listing otherwise;
    nothing is printed for the line and no later config line is
    processed. *)
Theorem nul_line_is_fatal spec fetch repo :
  is_repo_line repo ->
  has_nul repo = true ->
  forall pre post t0,
    for_ pre (repo_body repr os spec fetch) = (t0, Ok tt) ->
    for_ (pre ++ repo :: post) (repo_body repr os spec fetch)
    = ((t0 ++ [if fetch then ECheckCall (fetch_command repo)
               else ECheckOutput (tags_command repo)])%list,
       Abort (Uncaught ValueError)).
Proof.
  intros Hrepo Hn pre post t0 Hpre.
  exact (for_abort pre repo post _ _ _ _ Hpre (nul_step spec fetch repo Hrepo Hn)).
Qed.

(** X11: whatever way a run ends, the shell commands it has run are an
    initial part of the commands of the config lines, in order: at most a
    fetch (when enabled) and a listing per repository line, none for blank
    and comment lines. *)
Theorem commands_follow_config spec fetch text :
  file_bytes os (expanduser os FILE) = Some (Some text) ->
  prefix_of (commands (trace (print_versions repr os spec fetch)))
    (flat_map (line_commands fetch) (PyStr.split (ascii_of_nat 10) text)).
Proof.
  intros Hf. rewrite (print_versions_loop repr os spec fetch text Hf).
  unfold trace at 1. cbn [fst commands]. apply for_commands_prefix.
Qed.

End FailureFacts.

Module LastFacts.
Import PySort.

Section Last.
Context {K A : Type}.
Variable lt : K -> K -> bool.

(** An entry that nothing in the list exceeds is inserted at the end. *)
Lemma insert_at_end (x : K * A) acc :
  (forall e, In e acc -> lt (fst x) (fst e) = false) ->
  insert lt x acc = (acc ++ [x])%list.
Proof.
  induction acc as [|e acc IH]; intros H; [reflexivity|]. simpl.
  rewrite (H e (or_introl eq_refl)). f_equal. apply IH.
  intros e' He'. apply H. now right.
Qed.

(** An entry strictly below the last one is inserted before it. *)
Lemma insert_keeps_last (y x : K * A) init :
  lt (fst y) (fst x) = true ->
  exists init', insert lt y (init ++ [x]) = (init' ++ [x])%list.
Proof.
  intros H. induction init as [|e init [init' IH]]; simpl.
  - rewrite H. now exists [y].
  - destruct (lt (fst y) (fst e)).
    + now exists (y :: e :: init).
    + rewrite IH. now exists (e :: init').
Qed.

Lemma fold_keeps_last (x : K * A) post : forall init,
  (forall y, In y post -> lt (fst y) (fst x) = true) ->
  exists init',
    fold_left (fun acc y => insert lt y acc) post (init ++ [x])%list
    = (init' ++ [x])%list.
Proof.
  induction post as [|y post IH]; intros init H; simpl.
  - now exists init.
  - destruct (insert_keeps_last y x init (H y (or_introl eq_refl))) as [init' E].
    rewrite E. apply IH. intros y' Hy'. apply H. now right.
Qed.

(** The entry that is not below anything before it and strictly above
    everything after it ends up last. *)
Lemma sort_decorated_last pre (x : K * A) post :
  (forall e, In e pre -> lt (fst x) (fst e) = false) ->
  (forall y, In y post -> lt (fst y) (fst x) = true) ->
  exists init, sort_decorated lt (pre ++ x :: post) = (init ++ [x])%list.
Proof.
  intros Hpre Hpost. unfold sort_decorated. rewrite fold_left_app. simpl.
  rewrite insert_at_end.
  - now apply fold_keeps_last.
  - intros e He. apply Hpre.
    eapply Permutation_in; [|exact He].
    apply Permutation_sym.
    exact (SortFacts.fold_insert_perm lt pre []).
Qed.

Variable key : A -> option K.

Lemma decorate_app l1 l2 :
  decorate key (l1 ++ l2)
  = match decorate key l1, decorate key l2 with
    | Some d1, Some d2 => Some (d1 ++ d2)%list
    | _, _ => None
    end.
Proof.
  induction l1 as [|x l1 IH]; simpl.
  - now destruct (decorate key l2).
  - destruct (key x); [|reflexivity]. rewrite IH.
    destruct (decorate key l1); [|reflexivity].
    now destruct (decorate key l2).
Qed.

Lemma decorate_all (P : K -> Prop) l :
  (forall t, In t l -> exists k, key t = Some k /\ P k) ->
  exists d, decorate key l = Some d /\ forall e, In e d -> P (fst e).
Proof.
  induction l as [|x l IH]; intros H; simpl.
  - exists []. split; [reflexivity|]. intros e [].
  - destruct (H x (or_introl eq_refl)) as [k [Ek Pk]]. rewrite Ek.
    destruct IH as [d [Ed Pd]]; [intros t Ht; apply H; now right|].
    rewrite Ed. exists ((k, x) :: d). split; [reflexivity|].
    intros e [<-|He]; [exact Pk|now apply Pd].
Qed.

(** Among the elements with a greatest key, the sort puts last the one
    that came last in the list. *)
Lemma sort_last_listed pre x post kx :
  key x = Some kx ->
  (forall t, In t pre -> exists k, key t = Some k /\ lt kx k = false) ->
  (forall t, In t post -> exists k, key t = Some k /\ lt k kx = true) ->
  exists s0, sort lt key (pre ++ x :: post) = Some (s0 ++ [x])%list.
Proof.
  intros Ex Hpre Hpost.
  destruct (decorate_all (fun k => lt kx k = false) pre Hpre) as [dpre [Epre Ppre]].
  destruct (decorate_all (fun k => lt k kx = true) post Hpost) as [dpost [Epost Ppost]].
  unfold sort. rewrite decorate_app. simpl. rewrite Epre, Ex, Epost.
  destruct (sort_decorated_last dpre (kx, x) dpost Ppre Ppost) as [init E].
  rewrite E, map_app. now exists (map snd init).
Qed.

End Last.
End LastFacts.

Section FurtherFacts.
Context {semver : SemanticVersion}.
Variable repr : string -> string.
Variable os : World.

Lemma tag_body_keeps spec versions tag :
  spec_ok spec ->
  tag_body spec versions tag
  = ret (if keeps spec tag then (versions ++ [PyStr.lstrip "v" tag])%list
         else versions).
Proof.
  unfold spec_ok, tag_body, keeps, loose.
  destruct (PyStr.truthy (PyStr.lstrip "v" tag)); simpl; [|reflexivity].
  destruct (Version_partial (PyStr.lstrip "v" tag)) as [sem|]; simpl;
    [|reflexivity].
  destruct (if_str spec) as [sp|]; [|reflexivity].
  intros [s ->]. now destruct (Spec_match s sem).
Qed.

Lemma tag_loop_filter_acc spec tags : spec_ok spec -> forall acc,
  foldM (tag_body spec) acc tags
  = ret (acc ++ map (PyStr.lstrip "v") (filter (keeps spec) tags))%list.
Proof.
  intros Hok. induction tags as [|tag tags IH]; intros acc; simpl.
  - now rewrite app_nil_r.
  - rewrite (tag_body_keeps spec acc tag Hok), bind_ret_l, IH.
    destruct (keeps spec tag); [|reflexivity].
    simpl. now rewrite <- app_assoc.
Qed.

Lemma last_or_none_snoc s0 x : last_or_none (s0 ++ [x]) = Some x.
Proof.
  unfold last_or_none. rewrite last_last.
  destruct s0; reflexivity.
Qed.

Lemma normalize_spec_some a :
  normalize_spec (Some a) = Some (PyStr.lstrip "v" a).
Proof. now destruct a. Qed.

Lemma lstrip_only_vs n : PyStr.lstrip "v" (vs n) = EmptyString.
Proof. induction n as [|n IH]; [reflexivity|exact IH]. Qed.

Lemma non_flags_filter l :
  Forall (fun a => a <> EmptyString) l ->
  non_flags l = ret (filter (fun a => negb (is_flag a)) l).
Proof.
  induction 1 as [|a l Ha _ IH]; [reflexivity|]. simpl.
  destruct a as [|c a']; [congruence|]. rewrite IH, bind_ret_l. reflexivity.
Qed.

Lemma hd_error_filter {A : Type} (f : A -> bool) l :
  hd_error (filter f l) = find f l.
Proof.
  induction l as [|x l IH]; [reflexivity|]. simpl.
  now destruct (f x).
Qed.

(** X4: with no specification or a well-formed one, the tag loop is a
    filter: it retains, in the order git lists them, the stripped forms
    of exactly the tags that pass the loose parse and the range. *)
Theorem tag_loop_is_filter spec tags :
  spec_ok spec ->
  foldM (tag_body spec) [] tags
  = ret (map (PyStr.lstrip "v") (filter (keeps spec) tags)).
Proof. intros Hok. exact (tag_loop_filter_acc spec tags Hok []). Qed.

(** X12: every retained tag is non-empty, has no leading [v] and is a
    loose semantic version. *)
Theorem retained_tags_are_clean spec tags versions :
  outcome (foldM (tag_body spec) [] tags) = Ok versions ->
  Forall (fun v => v <> EmptyString
                   /\ starts_with_v v = false
                   /\ Version_partial v <> None) versions.
Proof.
  intros Hv. apply Forall_forall. intros v Hin.
  destruct (tag_loop_sound spec tags [] versions Hv v Hin)
    as [[]|[tag [_ [-> [Hl _]]]]].
  unfold loose in Hl. apply andb_true_iff in Hl. destruct Hl as [Ht Hp].
  split; [|split].
  - intros E. rewrite E in Ht. discriminate.
  - apply StrFacts.lstrip_v_head.
  - intros E. rewrite E in Hp. discriminate.
Qed.

(** X5: ties are broken by position.  When a retained tag is not below
    any retained tag listed before it and strictly above every retained
    tag listed after it, it is the one reported. *)
Theorem latest_is_last_listed_maximum spec fetch repo output pre x post kx :
  is_repo_line repo ->
  commands_succeed os fetch repo output ->
  outcome (foldM (tag_body spec) [] (tags_of output)) = Ok (pre ++ x :: post)%list ->
  StrictVersion.parse x = Some kx ->
  (forall t, In t pre ->
     exists k, StrictVersion.parse t = Some k /\ StrictVersion.__lt__ kx k = false) ->
  (forall t, In t post ->
     exists k, StrictVersion.parse t = Some k /\ StrictVersion.__lt__ k kx = true) ->
  repo_body repr os spec fetch repo
  = ((repo_prefix fetch repo ++ [EPrint (basename repo ++ ": " ++ x)])%list, Ok tt).
Proof.
  intros Hrepo Hc Hv Ex Hpre Hpost.
  rewrite (repo_body_step repr os spec fetch repo output Hrepo Hc), Hv.
  destruct (LastFacts.sort_last_listed StrictVersion.__lt__ StrictVersion.parse
              pre x post kx Ex Hpre Hpost) as [s0 Es].
  rewrite Es, last_or_none_snoc. unfold result_line, version_field, if_str.
  destruct x as [|c x']; [discriminate Ex|reflexivity].
Qed.

(** X6: leading [v] letters on the specification change nothing, and a
    specification made of [v] letters only is no specification at all. *)
Theorem spec_leading_v_irrelevant n s fetch :
  print_versions repr os (Some (vs n ++ s)) fetch
  = print_versions repr os (Some s) fetch
  /\ print_versions repr os (Some (vs n)) fetch
     = print_versions repr os None fetch.
Proof.
  unfold print_versions. rewrite !normalize_spec_some.
  rewrite StrFacts.lstrip_vs, lstrip_only_vs. split; reflexivity.
Qed.

(** X7: blank config lines are inert: the loop does on a list of lines
    what it does on the list without its empty lines. *)
Theorem blank_lines_are_inert spec fetch lines :
  for_ lines (repo_body repr os spec fetch)
  = for_ (filter PyStr.truthy lines) (repo_body repr os spec fetch).
Proof.
  induction lines as [|line lines IH]; [reflexivity|].
  destruct line as [|c r]; simpl filter.
  - rewrite for_cons. simpl repo_body. now rewrite bind_ret_l.
  - now rewrite !for_cons, IH.
Qed.

(** X8: when no argument is empty and no help flag is given, the
    specification is the first argument after the program name that does
    not begin with a dash, if any; other such arguments and unknown flags
    are ignored, and fetching is on unless [--nofetch] occurs. *)
Theorem main_takes_first_positional argv :
  Forall (fun a => a <> EmptyString) (tl argv) ->
  PyStr.contains "-h" argv = false ->
  PyStr.contains "--help" argv = false ->
  main repr os argv
  = print_versions repr os
      (find (fun a => negb (is_flag a)) (tl argv))
      (negb (PyStr.contains "--nofetch" argv)).
Proof.
  intros Hne Hh Hhelp. unfold main. rewrite Hh, Hhelp. cbn [orb].
  rewrite (non_flags_filter _ Hne), bind_ret_l. now rewrite hd_error_filter.
Qed.

End FurtherFacts.

Module PathFacts.
Import PyStr.

Lemma rfind_from_none sep s : forall i,
  mem sep s = false -> rfind_from sep s i = (-1)%Z.
Proof.
  induction s as [|c s IH]; intros i H; [reflexivity|]. simpl in *.
  apply orb_false_iff in H. destruct H as [Hc Hs].
  rewrite (IH _ Hs). simpl. now rewrite Ascii.eqb_sym, Hc.
Qed.

Lemma rfind_from_last sep d n : forall i,
  (0 <= i)%Z -> mem sep n = false ->
  rfind_from sep (d ++ String sep n) i = (i + Z.of_nat (String.length d))%Z.
Proof.
  induction d as [|c d IH]; intros i Hi Hn; simpl.
  - rewrite (rfind_from_none sep n _ Hn). simpl.
    rewrite Ascii.eqb_refl. lia.
  - rewrite (IH (i + 1)%Z) by (lia || assumption).
    destruct (0 <=? i + 1 + Z.of_nat (String.length d))%Z eqn:E; [lia|].
    apply Z.leb_gt in E. lia.
Qed.

Lemma length_app a b :
  String.length (a ++ b) = String.length a + String.length b.
Proof. induction a as [|c a IH]; [reflexivity|]. simpl. now rewrite IH. Qed.

Lemma substring_all s : substring 0 (String.length s) s = s.
Proof. induction s as [|c s IH]; [reflexivity|]. simpl. now rewrite IH. Qed.

Lemma substring_after d c n m :
  substring (S (String.length d)) m (d ++ String c n) = substring 0 m n.
Proof. induction d as [|e d IH]; [reflexivity|]. exact IH. Qed.

(** X9: the name printed for a repository is what follows the last slash
    of its path: [dir/name] is reported as [name], a path without a slash
    as itself, and a path that ends in a slash under the empty name. *)
Theorem basename_is_last_component d n :
  mem "/" n = false ->
  basename (d ++ "/" ++ n) = n
  /\ basename n = n
  /\ basename (d ++ "/") = EmptyString.
Proof.
  intros Hn. unfold basename, rfind, slice_from. split; [|split].
  - change (d ++ "/" ++ n) with (d ++ String "/" n).
    rewrite (rfind_from_last "/" d n 0%Z) by (lia || assumption).
    replace (Z.to_nat (0 + Z.of_nat (String.length d) + 1))
      with (S (String.length d)) by lia.
    rewrite substring_after, length_app. simpl String.length.
    replace (String.length d + S (String.length n) - S (String.length d))
      with (String.length n) by lia.
    apply substring_all.
  - rewrite (rfind_from_none "/" n _ Hn). simpl Z.to_nat.
    rewrite Nat.sub_0_r. apply substring_all.
  - change (d ++ "/") with (d ++ String "/" EmptyString).
    rewrite (rfind_from_last "/" d EmptyString 0%Z) by (lia || reflexivity).
    replace (Z.to_nat (0 + Z.of_nat (String.length d) + 1))
      with (S (String.length d)) by lia.
    rewrite substring_after. now destruct (String.length _ - _).
Qed.

End PathFacts.

(* ================================================================== *)
(** ** The claims on concrete runs *)

#[local] Existing Instance Sample.lib.

(** C1 at a repository tagged [10.0.0], [2.0.0] and [v1.2]: [10.0.0] is
    printed, the numerically greatest, although [2.0.0] is the greatest
    of them as a string. *)
Lemma C1_witness :
  repo_body Sample.quote (Sample.machine Sample.tags_numeric Sample.tags_junk)
    None true Sample.repoA
  = ((repo_prefix true Sample.repoA ++ [EPrint "repoA: 10.0.0"])%list, Ok tt)
  /\ Numeric.triple "10.0.0" = Some (10, 0, 0)%N
  /\ Numeric.triple "2.0.0" = Some (2, 0, 0)%N
  /\ Numeric.lt (2, 0, 0)%N (10, 0, 0)%N
  /\ String.ltb "10.0.0" "2.0.0" = true.
Proof.
  destruct (C1_latest_is_numeric_maximum (semver := Sample.lib) Sample.quote
              (Sample.machine Sample.tags_numeric Sample.tags_junk)
              None true Sample.repoA Sample.tags_numeric
              ["10.0.0"; "2.0.0"; "1.2"])
    as [latest [kl [E [Hin [_ [_ Hnum]]]]]].
  - simpl. discriminate.
  - split; [reflexivity|split; [intros _|]; reflexivity].
  - vm_compute. reflexivity.
  - discriminate.
  - repeat constructor; vm_compute; discriminate.
  - split; [|repeat split; try reflexivity; unfold Numeric.lt; lia].
    destruct (Hnum "10.0.0" (or_introl eq_refl)) as [nt [nl [Et [El Hle]]]].
    vm_compute in Et. inversion Et; subst nt; clear Et.
    destruct Hin as [<-|[<-|[<-|[]]]].
    + exact E.
    + exfalso. vm_compute in El. inversion El; subst nl.
      destruct Hle as [Hle|Hle]; [discriminate Hle|].
      unfold Numeric.lt in Hle. lia.
    + exfalso. vm_compute in El. inversion El; subst nl.
      destruct Hle as [Hle|Hle]; [discriminate Hle|].
      unfold Numeric.lt in Hle. lia.
Defined.

(** The run of that machine: [10.0.0] is reported, not the greatest string
    [2.0.0]. *)
Example latest_is_10_0_0 :
  stdout (trace (main Sample.quote (Sample.machine Sample.tags_numeric Sample.tags_junk)
                   ["git_versions.py"]))
  = ["repoA: 10.0.0"; ""; "repoB: no match"].
Proof. vm_compute. reflexivity. Qed.

(** C2 with the range [<2.0.0] at a repository tagged [10.0.0], [2.0.0]
    and [v1.2]. *)
Lemma C2_witness :
  exists output versions field,
    commands_succeed (Sample.machine Sample.tags_numeric Sample.tags_junk)
      false Sample.repoA output
    /\ outcome (foldM (tag_body (semver := Sample.lib) (Some "<2.0.0")) []
                  (tags_of output)) = Ok versions
    /\ stdout (trace (repo_body Sample.quote
                        (Sample.machine Sample.tags_numeric Sample.tags_junk)
                        (Some "<2.0.0") false Sample.repoA))
       = [basename Sample.repoA ++ ": " ++ field]
    /\ ((versions = [] /\ field = "no match")
        \/ (In field versions
            /\ exists sem, Sample.parse_partial field = Some sem
                           /\ Sample.matches Sample.below_2 sem = true)).
Proof.
  apply (C2_latest_in_range (semver := Sample.lib) Sample.quote
           (Sample.machine Sample.tags_numeric Sample.tags_junk)
           (Some "<2.0.0") "<2.0.0" Sample.below_2 false Sample.repoA).
  - reflexivity.
  - reflexivity.
  - simpl. discriminate.
  - vm_compute. reflexivity.
Defined.

Example latest_below_2 :
  stdout (trace (main Sample.quote (Sample.machine Sample.tags_numeric Sample.tags_junk)
                   ["git_versions.py"; "--nofetch"; "v<2.0.0"]))
  = ["repoA: 1.2"; ""; "repoB: no match"].
Proof. vm_compute. reflexivity. Qed.

(** C3 at a repository whose tags are [notaversion] and [v]. *)
Lemma C3_witness :
  repo_body Sample.quote (Sample.machine Sample.tags_numeric Sample.tags_junk)
    None true Sample.repoB
  = ((repo_prefix true Sample.repoB
      ++ [EPrint (basename Sample.repoB ++ ": no match")])%list, Ok tt)
  /\ stdout (trace (repo_body Sample.quote
                      (Sample.machine Sample.tags_numeric Sample.tags_junk)
                      None true Sample.repoB))
     = [basename Sample.repoB ++ ": no match"].
Proof.
  apply (C3_no_match_when_nothing_retained (semver := Sample.lib) Sample.quote
           (Sample.machine Sample.tags_numeric Sample.tags_junk)
           None true Sample.repoB Sample.tags_junk).
  - simpl. discriminate.
  - split; [reflexivity|split; [intros _|]; reflexivity].
  - vm_compute. reflexivity.
Defined.



Example rc_tag_run :
  let m := main Sample.quote (Sample.machine Sample.tags_rc Sample.tags_numeric)
             ["git_versions.py"; "--nofetch"] in
  stdout (trace m) = ["Invalid version in repo /src/repoA: ['1.0.0', '1.2.3-rc1']"]
  /\ outcome m = Abort (SystemExit (-1)).
Proof. vm_compute. split; reflexivity. Qed.

(** C6 as stated fails: [bogus] is not a range expression, the first
    repository has only tags that do not parse loosely, and it is reported
    as usual; so is the second, and the run ends normally. *)
Lemma C6_counterexample :
  let m := main Sample.quote (Sample.machine Sample.tags_junk EmptyString)
             ["git_versions.py"; "bogus"] in
  Sample.parse_spec "bogus" = None
  /\ stdout (trace m) = ["repoA: no match"; ""; "repoB: no match"]
  /\ outcome m = Ok tt.
Proof. vm_compute. repeat split; reflexivity. Qed.

(** The amended C6 at a repository tagged [1.0.0] and [1.2.3-rc1]. *)
Lemma C6_witness :
  let os := Sample.machine Sample.tags_rc Sample.tags_junk in
  repo_body Sample.quote os (Some "bogus") true Sample.repoA
  = (if existsb loose (tags_of Sample.tags_rc)
     then (repo_prefix true Sample.repoA, Abort (Uncaught ValueError))
     else ((repo_prefix true Sample.repoA
            ++ [EPrint (basename Sample.repoA ++ ": no match")])%list, Ok tt))
  /\ (existsb loose (tags_of Sample.tags_rc) = true ->
      forall pre post t0,
        for_ pre (repo_body Sample.quote os (Some "bogus") true) = (t0, Ok tt) ->
        for_ (pre ++ Sample.repoA :: post) (repo_body Sample.quote os (Some "bogus") true)
        = ((t0 ++ repo_prefix true Sample.repoA)%list, Abort (Uncaught ValueError))).
Proof.
  apply (C6_malformed_spec_aborts_at_first_loose_tag (semver := Sample.lib)
           Sample.quote (Sample.machine Sample.tags_rc Sample.tags_junk)
           (Some "bogus") "bogus" true Sample.repoA Sample.tags_rc).
  - reflexivity.
  - reflexivity.
  - simpl. discriminate.
  - split; [reflexivity|split; [intros _|]; reflexivity].
Defined.

Example malformed_spec_run :
  let m := main Sample.quote (Sample.machine Sample.tags_junk Sample.tags_rc)
             ["git_versions.py"; "bogus"] in
  trace m
  = [EOpen "~/.git-status";
     ECheckCall "(cd /src/repoA; git fetch;)"; ECheckOutput "(cd /src/repoA; git tag -l)";
     EPrint "repoA: no match"; EPrint "";
     ECheckCall "(cd /src/tools/repoB; git fetch;)";
     ECheckOutput "(cd /src/tools/repoB; git tag -l)"]
  /\ outcome m = Abort (Uncaught ValueError).
Proof. vm_compute. split; reflexivity. Qed.

(** C7 as stated fails: [vv1.2.3] loses both letters and is retained as
    [1.2.3]. *)
Lemma C7_counterexample :
  PyStr.lstrip "v" "vv1.2.3" = "1.2.3"
  /\ PyStr.lstrip "v" "vv1.2.3" <> "v1.2.3"
  /\ tag_body None [] "vv1.2.3" = ret ["1.2.3"].
Proof. split; [reflexivity|]. split; [discriminate|reflexivity]. Qed.

(** The amended C7 at [vv1.2.3]. *)
Lemma C7_witness :
  PyStr.lstrip "v" "vv1.2.3" = "1.2.3"
  /\ forall spec versions,
       tag_body spec versions "vv1.2.3" = tag_body spec versions "1.2.3".
Proof.
  apply (C7_every_leading_v_is_stripped (semver := Sample.lib) 2 "1.2.3").
  reflexivity.
Defined.

(** C9 at a repository tagged [v1.0.0] and [1]. *)
Lemma C9_witness :
  let os := Sample.machine Sample.tags_junk Sample.tags_single in
  exists versions,
    outcome (foldM (tag_body None) [] (tags_of Sample.tags_single)) = Ok versions
    /\ In (PyStr.lstrip "v" "1") versions
    /\ repo_body Sample.quote os None false Sample.repoB
       = ((repo_prefix false Sample.repoB
           ++ [EPrint (diagnostic Sample.quote Sample.repoB versions)])%list,
          Abort (SystemExit (-1)))
    /\ forall pre post t0,
         for_ pre (repo_body Sample.quote os None false) = (t0, Ok tt) ->
         for_ (pre ++ Sample.repoB :: post) (repo_body Sample.quote os None false)
         = ((t0 ++ repo_prefix false Sample.repoB
                ++ [EPrint (diagnostic Sample.quote Sample.repoB versions)])%list,
            Abort (SystemExit (-1))).
Proof.
  apply (C9_loose_but_not_strict_aborts (semver := Sample.lib) Sample.quote
           (Sample.machine Sample.tags_junk Sample.tags_single)
           None false Sample.repoB Sample.tags_single "1").
  - simpl. discriminate.
  - split; [reflexivity|split; [discriminate|reflexivity]].
  - vm_compute. right. left. reflexivity.
  - reflexivity.
  - exact I.
  - reflexivity.
Defined.

Example single_component_run :
  let m := main Sample.quote (Sample.machine Sample.tags_junk Sample.tags_single)
             ["git_versions.py"; "--nofetch"] in
  stdout (trace m)
  = ["repoA: no match"; ""; "Invalid version in repo /src/tools/repoB: ['1.0.0', '1']"]
  /\ outcome m = Abort (SystemExit (-1)).
Proof. vm_compute. split; reflexivity. Qed.

(** C10 as stated fails: with [-h] on the command line the usage text is
    printed and the script exits before any argument is indexed. *)
Lemma C10_counterexample :
  In EmptyString (tl ["git_versions.py"; "-h"; ""])
  /\ main Sample.quote (Sample.machine Sample.tags_junk Sample.tags_junk)
       ["git_versions.py"; "-h"; ""]
     = ([EPrint USAGE], Abort (SystemExit (-1)))
  /\ main Sample.quote (Sample.machine Sample.tags_junk Sample.tags_junk)
       ["git_versions.py"; "-h"; ""]
     <> ([], Abort (Uncaught IndexError)).
Proof.
  split; [simpl; right; left; reflexivity|].
  split; [reflexivity|discriminate].
Qed.

(** The amended C10 at [git_versions.py --nofetch '']. *)
Lemma C10_witness :
  main Sample.quote (Sample.machine Sample.tags_junk Sample.tags_junk)
    ["git_versions.py"; "--nofetch"; ""]
  = ([], Abort (Uncaught IndexError)).
Proof.
  apply (C10_empty_argument_raises_IndexError (semver := Sample.lib)).
  - reflexivity.
  - reflexivity.
  - simpl. right. left. reflexivity.
Defined.

(* ================================================================== *)
(** ** The further properties on concrete runs *)

(** X2 at a config line that is not a git checkout, after one that is. *)
Lemma fetch_failure_is_fatal_witness :
  for_ ([Sample.repoA; ""; "# tools"] ++ Sample.repoB :: ["/src/later"])
    (repo_body Sample.quote Sample.half_machine None true)
  = (([ECheckCall (fetch_command Sample.repoA);
       ECheckOutput (tags_command Sample.repoA);
       EPrint "repoA: 10.0.0"; EPrint ""]
      ++ [ECheckCall (fetch_command Sample.repoB)])%list,
     Abort (Uncaught CalledProcessError)).
Proof.
  apply (fetch_failure_is_fatal (semver := Sample.lib) Sample.quote
           Sample.half_machine None Sample.repoB).
  - simpl. discriminate.
  - reflexivity.
  - reflexivity.
  - vm_compute. reflexivity.
Defined.

Example fetch_failure_run :
  main Sample.quote Sample.half_machine ["git_versions.py"]
  = ([EOpen "~/.git-status";
      ECheckCall "(cd /src/repoA; git fetch;)";
      ECheckOutput "(cd /src/repoA; git tag -l)";
      EPrint "repoA: 10.0.0"; EPrint "";
      ECheckCall "(cd /src/tools/repoB; git fetch;)"],
     Abort (Uncaught CalledProcessError)).
Proof. vm_compute. reflexivity. Qed.

(** X3 at the same line, without fetching. *)
Lemma listing_failure_is_fatal_witness :
  let t0 := [ECheckOutput (tags_command Sample.repoA);
             EPrint "repoA: 10.0.0"; EPrint ""] in
  for_ ([Sample.repoA; ""; "# tools"] ++ Sample.repoB :: ["/src/later"])
    (repo_body Sample.quote Sample.half_machine None false)
  = ((t0 ++ repo_prefix false Sample.repoB)%list,
     Abort (Uncaught CalledProcessError))
  /\ stdout (t0 ++ repo_prefix false Sample.repoB) = stdout t0.
Proof.
  apply (listing_failure_is_fatal (semver := Sample.lib) Sample.quote
           Sample.half_machine None false Sample.repoB).
  - simpl. discriminate.
  - reflexivity.
  - discriminate.
  - reflexivity.
  - vm_compute. reflexivity.
Defined.

(** X4 with the range [<2.0.0] on the tags [10.0.0], [2.0.0], [v1.2]. *)
Lemma tag_loop_is_filter_witness :
  foldM (tag_body (Some "<2.0.0")) [] (tags_of Sample.tags_numeric)
  = ret (map (PyStr.lstrip "v")
           (filter (keeps (Some "<2.0.0")) (tags_of Sample.tags_numeric))).
Proof.
  apply (tag_loop_is_filter (semver := Sample.lib)).
  simpl. exists Sample.below_2. reflexivity.
Defined.

(** X5 at the tags [1.2], [v1.2.0], [1.1.9]: [1.2.0] is reported. *)
Lemma latest_is_last_listed_maximum_witness :
  repo_body Sample.quote (Sample.machine Sample.tags_ties Sample.tags_junk)
    None true Sample.repoA
  = ((repo_prefix true Sample.repoA
      ++ [EPrint (basename Sample.repoA ++ ": " ++ "1.2.0")])%list, Ok tt).
Proof.
  apply (latest_is_last_listed_maximum (semver := Sample.lib) Sample.quote
           (Sample.machine Sample.tags_ties Sample.tags_junk)
           None true Sample.repoA Sample.tags_ties ["1.2"] "1.2.0" ["1.1.9"]
           (StrictVersion.mk (1, 2, 0)%N None)).
  - simpl. discriminate.
  - split; [reflexivity|split; [intros _|]; reflexivity].
  - vm_compute. reflexivity.
  - reflexivity.
  - intros t [<-|[]]. exists (StrictVersion.mk (1, 2, 0)%N None).
    split; reflexivity.
  - intros t [<-|[]]. exists (StrictVersion.mk (1, 1, 9)%N None).
    split; reflexivity.
Defined.

(** X8 at [git_versions.py -x <2.0.0 --nofetch extra]. *)
Lemma main_takes_first_positional_witness :
  main Sample.quote (Sample.machine Sample.tags_numeric Sample.tags_junk)
    ["git_versions.py"; "-x"; "<2.0.0"; "--nofetch"; "extra"]
  = print_versions Sample.quote (Sample.machine Sample.tags_numeric Sample.tags_junk)
      (Some "<2.0.0") false.
Proof.
  apply (main_takes_first_positional (semver := Sample.lib) Sample.quote
           (Sample.machine Sample.tags_numeric Sample.tags_junk)
           ["git_versions.py"; "-x"; "<2.0.0"; "--nofetch"; "extra"]).
  - simpl. repeat constructor; discriminate.
  - reflexivity.
  - reflexivity.
Defined.

(** X9 at [/src/repoA]. *)
Lemma basename_is_last_component_witness :
  basename ("/src" ++ "/" ++ "repoA") = "repoA"
  /\ basename "repoA" = "repoA"
  /\ basename ("/src" ++ "/") = EmptyString.
Proof.
  apply (PathFacts.basename_is_last_component "/src" "repoA").
  reflexivity.
Defined.

(** X11 on a run that stops at the second repository. *)
Lemma commands_follow_config_witness :
  prefix_of
    (commands (trace (print_versions Sample.quote Sample.half_machine None true)))
    (flat_map (line_commands true) (PyStr.split (ascii_of_nat 10) Sample.config)).
Proof.
  apply (commands_follow_config (semver := Sample.lib) Sample.quote
           Sample.half_machine None true Sample.config).
  reflexivity.
Defined.

(** X12 at the tags [10.0.0], [2.0.0], [v1.2]. *)
Lemma retained_tags_are_clean_witness :
  Forall (fun v => v <> EmptyString
                   /\ starts_with_v v = false
                   /\ Sample.parse_partial v <> None)
    ["10.0.0"; "2.0.0"; "1.2"].
Proof.
  apply (retained_tags_are_clean (semver := Sample.lib) None
           (tags_of Sample.tags_numeric) ["10.0.0"; "2.0.0"; "1.2"]).
  vm_compute. reflexivity.
Defined.

(** X13 at a line with a NUL character, after a line that is reported. *)
Lemma nul_line_is_fatal_witness :
  for_ ([Sample.repoA] ++ Sample.nul_line :: [Sample.repoB])
    (repo_body Sample.quote (Sample.machine Sample.tags_numeric Sample.tags_junk)
       None false)
  = (([ECheckOutput (tags_command Sample.repoA); EPrint "repoA: 10.0.0"]
      ++ [ECheckOutput (tags_command Sample.nul_line)])%list,
     Abort (Uncaught ValueError)).
Proof.
  apply (nul_line_is_fatal (semver := Sample.lib) Sample.quote
           (Sample.machine Sample.tags_numeric Sample.tags_junk)
           None false Sample.nul_line).
  - simpl. discriminate.
  - reflexivity.
  - vm_compute. reflexivity.
Defined.
